(** * qqq-dashboard: the quote cache, the tiered fetch and the two JSON
      endpoints of [app.py], embedded and verified.

    Modelling choices, all taken from the source:
    - a Python [float] is an IEEE-754 binary64, here Rocq's primitive
      [float] (same format, same rounding);
    - [time.time()] returns such a float too, and the age of a cache entry
      is the rounded binary64 difference of two clock readings, compared
      with the TTL as floats, as the source computes it;
    - a Python [str] is a [string] (code points below 256);
    - the module-level dict [_CACHE] is a [gmap string Entry] held in the
      world state; every interaction with the outside (clock, yfinance,
      [datetime.utcnow]) is recorded in the world's trace, and the outside
      answers as a function of the trace so far, so that two identical
      queries may be answered differently;
    - a Python exception is an explicit [Raise] outcome; state changes made
      before an exception are kept, as in Python. *)

From Stdlib Require Import Floats Bool Ascii String.
From stdpp Require Import gmap strings list.

Local Open Scope string_scope.

(* Decimal literals such as 22.10 are rounded to the nearest binary64, as
   Python does. *)
Set Warnings "-inexact-float".

(** ** Outcomes and the world *)

Inductive exn : Type :=
| Exception (detail : string).

Inductive outcome (A : Type) : Type :=
| Ok (a : A)
| Raise (e : exn).
Arguments Ok {A} a.
Arguments Raise {A} e.

(** The index of a [DataFrame] row, [last.name]: an object of which the
    code uses [hasattr(ts, "tz_convert")], [ts.tz_convert(utc).isoformat()]
    and [ts.tz_localize(utc).isoformat()]. *)
Record Timestamp : Type := {
  has_tz_convert : bool;
  tz_convert_utc : outcome string;
  tz_localize_utc : outcome string
}.

(** One row of a history frame: [float(last["Close"])] and [last.name]. *)
Record Row : Type := {
  row_Close : outcome float;
  row_name : Timestamp
}.

(** [yf.Ticker(t).history(...)]: [None] or a frame ([hist.empty] is
    [rows = []]). *)
Definition Frame : Type := option (list Row).

Inductive Event : Type :=
| EvTime
| EvHistory (ticker period interval : string)
| EvFastInfo (ticker : string)
| EvUtcNow.

Definition is_upstream (e : Event) : bool :=
  match e with
  | EvHistory _ _ _ | EvFastInfo _ => true
  | EvTime | EvUtcNow => false
  end.

(** The queries sent to the quote provider, in the order they were made. *)
Definition upstream_calls (tr : list Event) : list Event :=
  List.filter is_upstream tr.

(** The outside world. [yf_fast_info] stands for the whole of
    [float(info.last_price) if getattr(info, "last_price", None) is not None
    else None]: [Raise] when any step of it raises, [Ok None] when the
    attribute is missing or [None]. [utcnow] is
    [datetime.utcnow().isoformat()]. *)
Record Env : Type := {
  time_time : list Event -> float;
  yf_history : list Event -> string -> string -> string -> outcome Frame;
  yf_fast_info : list Event -> string -> outcome (option float);
  utcnow : list Event -> string
}.

(** A cache entry, [{"p": price, "i": interval, "ts": iso, "t": time.time()}]. *)
Record Entry : Type := {
  e_p : option float;
  e_i : option string;
  e_ts : option string;
  e_t : float
}.

Record World : Type := {
  _CACHE : gmap string Entry;
  trace : list Event
}.

Definition Quote : Type := option float * option string * option string.

Definition no_data : Quote := (None, None, None).

(** ** The monad of the handlers: state, and exceptions that keep the state *)

Definition M (A : Type) : Type := World -> outcome A * World.

Definition ret {A} (a : A) : M A := fun w => (Ok a, w).

Definition bind {A B} (m : M A) (k : A -> M B) : M B :=
  fun w => match m w with
           | (Ok a, w') => k a w'
           | (Raise e, w') => (Raise e, w')
           end.

Definition raise {A} (e : exn) : M A := fun w => (Raise e, w).

(** [try: body / except Exception as e: handler e]. *)
Definition try_except {A} (body : M A) (handler : exn -> M A) : M A :=
  fun w => match body w with
           | (Ok a, w') => (Ok a, w')
           | (Raise e, w') => handler e w'
           end.

Definition lift {A} (o : outcome A) : M A := fun w => (o, w).

Declare Scope py_scope.
Delimit Scope py_scope with py.
Notation "x <- c ;; k" := (bind c (fun x => k))
  (at level 100, c at next level, right associativity) : py_scope.
Notation "c ;;; k" := (bind c (fun _ => k))
  (at level 100, right associativity) : py_scope.
Local Open Scope py_scope.

Definition log_event (e : Event) (w : World) : World :=
  {| _CACHE := _CACHE w; trace := trace w ++ [e] |}.

Definition _CACHE_TTL : float := 10%float.

(** The fetch tiers of [get_price], most granular first. *)
Definition TIERS : list (string * string) :=
  [("1d", "1m"); ("5d", "1h"); ("1mo", "1d")].

Section Core.

Variable env : Env.

(** *** The effects *)

Definition now : M float :=
  fun w => (Ok (time_time env (trace w)), log_event EvTime w).

Definition history (ticker period interval : string) : M Frame :=
  fun w => (yf_history env (trace w) ticker period interval,
            log_event (EvHistory ticker period interval) w).

Definition fast_info_last_price (ticker : string) : M (option float) :=
  fun w => (yf_fast_info env (trace w) ticker, log_event (EvFastInfo ticker) w).

Definition utcnow_isoformat : M string :=
  fun w => (Ok (utcnow env (trace w)), log_event EvUtcNow w).

Definition cache_lookup (ticker : string) : M (option Entry) :=
  fun w => (Ok (_CACHE w !! ticker), w).

Definition cache_store (ticker : string) (e : Entry) : M unit :=
  fun w => (Ok tt, {| _CACHE := <[ticker := e]> (_CACHE w); trace := trace w |}).

(** *** Quote cache *)

(** [(now - c["t"]) < _CACHE_TTL], in binary64. *)
Definition fresh (t_now : float) (c : Entry) : bool :=
  (t_now - e_t c <? _CACHE_TTL)%float.

Definition _cache_get (ticker : string) : M (option Entry) :=
  t_now <- now ;;
  c <- cache_lookup ticker ;;
  match c with
  | Some c => if fresh t_now c then ret (Some c) else ret None
  | None => ret None
  end.

Definition _cache_put (ticker : string) (price : option float)
    (interval iso : option string) : M unit :=
  t_now <- now ;;
  cache_store ticker {| e_p := price; e_i := interval; e_ts := iso; e_t := t_now |}.

(** *** Tiered fetch *)

Definition ts_utc_isoformat (ts : Timestamp) : outcome string :=
  if has_tz_convert ts then tz_convert_utc ts else tz_localize_utc ts.

Definition _hist_try (ticker period interval : string) : M Quote :=
  hist <- history ticker period interval ;;
  match hist with
  | Some rows =>
      match last rows with
      | Some last_row =>
          price <- lift (row_Close last_row) ;;
          iso <- lift (ts_utc_isoformat (row_name last_row)) ;;
          ret (Some price, Some interval, Some iso)
      | None => ret no_data
      end
  | None => ret no_data
  end.

(** The [try] block of the last resort; [Some q] when it returned [q]. *)
Definition fast_info_try (ticker : string) : M (option Quote) :=
  try_except
    (info <- fast_info_last_price ticker ;;
     match info with
     | Some price =>
         naive <- utcnow_isoformat ;;
         let ts := naive ++ "+00:00" in
         _cache_put ticker (Some price) (Some "fast_info") (Some ts) ;;;
         ret (Some (Some price, Some "fast_info", Some ts))
     | None => ret None
     end)
    (fun _ => ret None).

Definition last_resort (ticker : string) : M Quote :=
  r <- fast_info_try ticker ;;
  match r with
  | Some q => ret q
  | None => _cache_put ticker None None None ;;; ret no_data
  end.

(** The [for period, interval in [...]] loop, followed by the code after it. *)
Fixpoint hist_loop (ticker : string) (tiers : list (string * string)) : M Quote :=
  match tiers with
  | [] => last_resort ticker
  | (period, interval) :: tiers' =>
      q <- _hist_try ticker period interval ;;
      match q with
      | (Some price, i, ts) =>
          _cache_put ticker (Some price) i ts ;;; ret (Some price, i, ts)
      | (None, _, _) => hist_loop ticker tiers'
      end
  end.

Definition get_price (ticker : string) : M Quote :=
  c <- _cache_get ticker ;;
  match c with
  | Some c => ret (e_p c, e_i c, e_ts c)
  | None => hist_loop ticker TIERS
  end.

End Core.


(** ** Portfolio configuration

    The JSON of [portfolios.json], of the shape
    [{portfolios: [{name, currency, holdings: [{ticker, shares, avg_cost}]}]}].
    A key of a JSON object is missing, [null] or holds a value of the
    expected type; a JSON number is the [float] that [float(...)] makes of
    it. Files of another shape (a share count that [float] refuses, a
    [null] portfolio, a [portfolios] value that is not a list) make the
    handlers raise and answer 500; they are not values of these types, and
    the statements below are about files of this shape. *)

Inductive field (A : Type) : Type :=
| Absent
| Null
| Val (a : A).
Arguments Absent {A}.
Arguments Null {A}.
Arguments Val {A} a.

(** [d.get(key, default)]: the default only when the key is missing. *)
Definition get_or {A} (f : field A) (default : option A) : option A :=
  match f with
  | Absent => default
  | Null => None
  | Val a => Some a
  end.

(** [d.get(key)]. *)
Definition get {A} (f : field A) : option A := get_or f None.

Record Holding : Type := {
  h_ticker : field string;
  h_shares : field float;
  h_avg_cost : field float
}.

Record Portfolio : Type := {
  pf_name : field string;
  pf_currency : field string;
  pf_holdings : field (list (option Holding))
}.

(** The top-level object; [{}] is [{| d_portfolios := Absent |}]. *)
Record Data : Type := {
  d_portfolios : field (list Portfolio)
}.

Definition holding (ticker : string) (shares avg_cost : float) : option Holding :=
  Some {| h_ticker := Val ticker; h_shares := Val shares; h_avg_cost := Val avg_cost |}.

Definition DEMO_PORTFOLIOS : Data := {|
  d_portfolios := Val [
    {| pf_name := Val "Long-Term (USD)";
       pf_currency := Val "USD";
       pf_holdings := Val [holding "QQQ" 10%float 420.0%float;
                           holding "NVDA" 2%float 950.0%float] |};
    {| pf_name := Val "TFSA (CAD)";
       pf_currency := Val "CAD";
       pf_holdings := Val [holding "HHIS.TO" 100%float 22.10%float] |}
  ]
|}.

(** What [load_portfolios] finds at [PORTFOLIO_FILE]: no file, a file that
    [open] or [json.load] raises on, or parsed JSON ([None] when the top
    level is not an object). *)
Inductive PortfolioFile : Type :=
| FileMissing
| FileUnreadable
| FileJson (data : option Data).

Definition load_portfolios (file : PortfolioFile) : Data :=
  match file with
  | FileMissing => DEMO_PORTFOLIOS
  | FileUnreadable => DEMO_PORTFOLIOS
  | FileJson None => DEMO_PORTFOLIOS
  | FileJson (Some data) =>
      match d_portfolios data with
      | Absent => DEMO_PORTFOLIOS
      | Null | Val [] => DEMO_PORTFOLIOS
      | Val (_ :: _) => data
      end
  end.

(** [x or []]: an empty list is falsy and is replaced by an empty list. *)
Definition or_list {A} (x : option (list A)) : list A :=
  match x with
  | Some l => l
  | None => []
  end.

(** [h or {}]. *)
Definition or_empty (h : option Holding) : Holding :=
  match h with
  | Some h => h
  | None => {| h_ticker := Absent; h_shares := Absent; h_avg_cost := Absent |}
  end.

Definition truthy (s : string) : bool := negb (String.eqb s "").

(** [if t and t not in tickers: tickers.append(t)]. *)
Definition append_ticker (tickers : list string) (h : option Holding) : list string :=
  match get (h_ticker (or_empty h)) with
  | Some t =>
      if truthy t && negb (bool_decide (t ∈ tickers)) then tickers ++ [t] else tickers
  | None => tickers
  end.

(** [pf.get("holdings", []) or []]. *)
Definition holdings_of (pf : Portfolio) : list (option Holding) :=
  or_list (get_or (pf_holdings pf) (Some [])).

(** The two nested [for] loops that enumerate the tickers. *)
Definition collect_tickers (portfolios : list Portfolio) : list string :=
  fold_left (fun tickers pf => fold_left append_ticker (holdings_of pf) tickers)
            portfolios [].

(** [data.get("portfolios", []) or []], also [data.get("portfolios") or []]. *)
Definition portfolios_of (data : Data) : list Portfolio :=
  or_list (get_or (d_portfolios data) (Some [])).

(** *** The [tickers] query argument *)

(** [str.isspace] on the code points below 256. *)
Definition isspace (c : ascii) : bool :=
  let n := nat_of_ascii c in
  (Nat.leb 9 n && Nat.leb n 13) || (Nat.leb 28 n && Nat.leb n 32)
  || Nat.eqb n 133 || Nat.eqb n 160.

Fixpoint lstrip (s : string) : string :=
  match s with
  | String c s' => if isspace c then lstrip s' else s
  | EmptyString => EmptyString
  end.

Fixpoint rstrip (s : string) : string :=
  match s with
  | String c s' =>
      let r := rstrip s' in
      if isspace c && String.eqb r "" then EmptyString else String c r
  | EmptyString => EmptyString
  end.

(** [s.strip()]. *)
Definition strip (s : string) : string := rstrip (lstrip s).

(** [s.split(",")]. *)
Fixpoint split_comma (s : string) : list string :=
  match s with
  | EmptyString => [EmptyString]
  | String c s' =>
      let r := split_comma s' in
      if Ascii.eqb c ","%char then EmptyString :: r
      else match r with
           | x :: xs => String c x :: xs
           | [] => [String c EmptyString]
           end
  end.

(** [[t.strip() for t in tickers_arg.split(",") if t.strip()]]. *)
Definition parse_tickers (tickers_arg : string) : list string :=
  List.filter truthy (List.map strip (split_comma tickers_arg)).

(** The ticker list of [api_quote], given what [load_portfolios()]
    returns: the override when the argument is given and not empty, the
    portfolios' tickers otherwise. *)
Definition quote_tickers (data : Data) (tickers_arg : option string)
    : list string :=
  match tickers_arg with
  | Some (String c s) => parse_tickers (String c s)
  | Some EmptyString | None => collect_tickers (portfolios_of data)
  end.

(** ** The endpoints *)

Inductive QuoteItem : Type :=
| QuoteOk (ticker : string) (price : float) (interval time_utc : option string)
| QuoteError (ticker : string) (error : string).

Definition item_ticker (q : QuoteItem) : string :=
  match q with
  | QuoteOk t _ _ _ | QuoteError t _ => t
  end.

(** [jsonify(body), 200] or [jsonify({"error": error, "detail": detail}), 500]. *)
Inductive Response (A : Type) : Type :=
| Http200 (body : A)
| Http500 (error detail : string).
Arguments Http200 {A} body.
Arguments Http500 {A} error detail.

Record HoldingOut : Type := {
  o_ticker : option string;
  o_shares : float;
  o_avg_cost : float;
  o_price : option float;
  o_market_value : option float;
  o_pl : option float;
  o_pl_pct : option float;
  o_interval : option string;
  o_time_utc : option string
}.

Record Totals : Type := {
  t_cost : float;
  t_value : float;
  t_pl : float;
  t_pl_pct : option float
}.

Record PortfolioOut : Type := {
  po_name : option string;
  po_currency : option string;
  po_holdings : list HoldingOut;
  po_totals : Totals;
  po_last_updated_utc : string
}.

(** Python's [a / b] on floats. *)
Definition py_div (a b : float) : outcome float :=
  if (b =? 0)%float then Raise (Exception "float division by zero")
  else Ok (a / b)%float.

(** [float(x or 0)]. *)
Definition float_or_zero (x : option float) : float :=
  match x with
  | Some v => if (v =? 0)%float then 0%float else v
  | None => 0%float
  end.

(** [(pl / cost * 100.0) if cost > 0 else None]. *)
Definition pct_if_positive (pl cost : float) : outcome (option float) :=
  if (0 <? cost)%float then
    match py_div pl cost with
    | Ok r => Ok (Some (r * 100.0)%float)
    | Raise e => Raise e
    end
  else Ok None.

(** [quotes.get(ticker, {})]; the empty dict is [None]. *)
Definition quotes_get (quotes : gmap string Quote) (ticker : option string)
    : option Quote :=
  match ticker with
  | Some t => quotes !! t
  | None => None
  end.

Definition q_price (q : option Quote) : option float :=
  match q with Some (p, _, _) => p | None => None end.
Definition q_interval (q : option Quote) : option string :=
  match q with Some (_, i, _) => i | None => None end.
Definition q_time_utc (q : option Quote) : option string :=
  match q with Some (_, _, ts) => ts | None => None end.

(** The loop state of one portfolio: [holdings_out], [total_cost],
    [total_value]. *)
Definition Acc : Type := list HoldingOut * float * float.

(** One turn of [for h in pf.get("holdings", []) or []]. *)
Definition holding_step (quotes : gmap string Quote) (acc : Acc)
    (h : option Holding) : outcome Acc :=
  let '(holdings_out, total_cost, total_value) := acc in
  let h := or_empty h in
  let ticker := get (h_ticker h) in
  let shares := float_or_zero (get_or (h_shares h) (Some 0%float)) in
  let avg_cost := float_or_zero (get_or (h_avg_cost h) (Some 0%float)) in
  let q := quotes_get quotes ticker in
  let price := q_price q in
  let position_cost := (shares * avg_cost)%float in
  let row pl pl_pct position_value :=
    {| o_ticker := ticker; o_shares := shares; o_avg_cost := avg_cost;
       o_price := price; o_market_value := position_value;
       o_pl := pl; o_pl_pct := pl_pct;
       o_interval := q_interval q; o_time_utc := q_time_utc q |} in
  match price with
  | Some price =>
      let position_value := (shares * price)%float in
      let pl := (position_value - position_cost)%float in
      match pct_if_positive pl position_cost with
      | Ok pl_pct =>
          Ok ((holdings_out ++ [row (Some pl) pl_pct (Some position_value)])%list,
              (total_cost + position_cost)%float,
              (total_value + position_value)%float)
      | Raise e => Raise e
      end
  | None =>
      Ok ((holdings_out ++ [row None None None])%list, total_cost, total_value)
  end.

Fixpoint holdings_loop (quotes : gmap string Quote) (acc : Acc)
    (hs : list (option Holding)) : outcome Acc :=
  match hs with
  | [] => Ok acc
  | h :: hs' =>
      match holding_step quotes acc h with
      | Ok acc' => holdings_loop quotes acc' hs'
      | Raise e => Raise e
      end
  end.

(** The [if total_cost == 0 and total_value == 0] block. *)
Definition totals_of (total_cost total_value : float) : outcome Totals :=
  if (total_cost =? 0)%float && (total_value =? 0)%float then
    Ok {| t_cost := total_cost; t_value := total_value;
          t_pl := 0.0%float; t_pl_pct := None |}
  else
    let pf_total_pl := (total_value - total_cost)%float in
    match pct_if_positive pf_total_pl total_cost with
    | Ok pct => Ok {| t_cost := total_cost; t_value := total_value;
                      t_pl := pf_total_pl; t_pl_pct := pct |}
    | Raise e => Raise e
    end.

Section Endpoints.

Variable env : Env.

(** The [for t in tickers] loop of [api_quote]. *)
Fixpoint quote_loop (tickers : list string) (out : list QuoteItem)
    : M (list QuoteItem) :=
  match tickers with
  | [] => ret out
  | t :: tickers' =>
      q <- get_price env t ;;
      match q with
      | (Some p, i, ts) => quote_loop tickers' (out ++ [QuoteOk t p i ts])%list
      | (None, _, _) => quote_loop tickers' (out ++ [QuoteError t "No data"])%list
      end
  end.

(** The outermost [try ... except Exception as e] of a handler. *)
Definition respond {A} (error : string) (body : M A) (w : World)
    : Response A * World :=
  match body w with
  | (Ok a, w') => (Http200 a, w')
  | (Raise (Exception detail), w') => (Http500 error detail, w')
  end.

(** The body of [api_quote], with [data] the value of [load_portfolios()]. *)
Definition api_quote_on (data : Data) (tickers_arg : option string)
    : World -> Response (list QuoteItem) * World :=
  respond "api_quote_failed"
    (let tickers := quote_tickers data tickers_arg in
     match tickers with
     | [] => ret []
     | _ :: _ => quote_loop tickers []
     end).

Definition api_quote (file : PortfolioFile) (tickers_arg : option string)
    : World -> Response (list QuoteItem) * World :=
  api_quote_on (load_portfolios file) tickers_arg.

(** The prefetch loop of [api_portfolios]. *)
Fixpoint prefetch (all_tickers : list string) (quotes : gmap string Quote)
    : M (gmap string Quote) :=
  match all_tickers with
  | [] => ret quotes
  | t :: rest =>
      q <- get_price env t ;;
      prefetch rest (<[t := q]> quotes)
  end.

(** One turn of [for pf in portfolios] in [api_portfolios]. *)
Definition portfolio_payload (quotes : gmap string Quote) (pf : Portfolio)
    : M PortfolioOut :=
  let currency := get_or (pf_currency pf) (Some "USD") in
  acc <- lift (holdings_loop quotes ([], 0.0%float, 0.0%float) (holdings_of pf)) ;;
  let '(holdings_out, total_cost, total_value) := acc in
  totals <- lift (totals_of total_cost total_value) ;;
  stamp <- utcnow_isoformat env ;;
  ret {| po_name := get_or (pf_name pf) (Some "Portfolio");
         po_currency := currency;
         po_holdings := holdings_out;
         po_totals := totals;
         po_last_updated_utc := stamp ++ "Z" |}.

Fixpoint payload_loop (quotes : gmap string Quote) (portfolios : list Portfolio)
    (response_payload : list PortfolioOut) : M (list PortfolioOut) :=
  match portfolios with
  | [] => ret response_payload
  | pf :: rest =>
      po <- portfolio_payload quotes pf ;;
      payload_loop quotes rest (response_payload ++ [po])%list
  end.

(** The body of [api_portfolios], with [data] the value of
    [load_portfolios()]. *)
Definition api_portfolios_on (data : Data)
    : World -> Response (list PortfolioOut) * World :=
  respond "api_portfolios_failed"
    (let portfolios := portfolios_of data in
     match portfolios with
     | [] => ret []
     | _ :: _ =>
         let all_tickers := collect_tickers portfolios in
         quotes <- prefetch all_tickers ∅ ;;
         payload_loop quotes portfolios []
     end).

Definition api_portfolios (file : PortfolioFile)
    : World -> Response (list PortfolioOut) * World :=
  api_portfolios_on (load_portfolios file).

End Endpoints.

(** ** Vocabulary of the statements *)

(** [hist] that fails the test [hist is not None and not hist.empty]. *)
Definition is_empty_frame (o : outcome Frame) : bool :=
  match o with
  | Ok None | Ok (Some []) => true
  | Ok (Some (_ :: _)) | Raise _ => false
  end.

(** The history queries of the tiers, in order. *)
Definition hist_events (ticker : string) (tiers : list (string * string))
    : list Event :=
  List.map (fun tier => EvHistory ticker (fst tier) (snd tier)) tiers.

(** Every tier of [tiers], queried in order from trace [tr] on, comes back
    empty. *)
Fixpoint tiers_empty (env : Env) (ticker : string) (tr : list Event)
    (tiers : list (string * string)) : bool :=
  match tiers with
  | [] => true
  | (period, interval) :: tiers' =>
      is_empty_frame (yf_history env tr ticker period interval)
      && tiers_empty env ticker (tr ++ [EvHistory ticker period interval]) tiers'
  end.

(** The snapshot query gives no usable price: it raises, or has no
    [last_price]. *)
Definition no_snapshot (o : outcome (option float)) : bool :=
  match o with
  | Ok (Some _) => false
  | Ok None | Raise _ => true
  end.

(** The portfolios that the file itself configures. *)
Definition configured (file : PortfolioFile) : list Portfolio :=
  match file with
  | FileJson (Some data) => portfolios_of data
  | FileJson None | FileMissing | FileUnreadable => []
  end.

(** The non-blank tickers of the holdings, in the order the loops of
    [collect_tickers] meet them, repetitions included. *)
Definition listed_ticker (h : option Holding) : list string :=
  match get (h_ticker (or_empty h)) with
  | Some t => if truthy t then [t] else []
  | None => []
  end.

Definition listed_tickers (portfolios : list Portfolio) : list string :=
  List.flat_map (fun pf => List.flat_map listed_ticker (holdings_of pf)) portfolios.

(** [if t not in tickers: tickers.append(t)] for a ticker already known
    not to be blank. *)
Definition note_ticker (tickers : list string) (t : string) : list string :=
  if bool_decide (t ∈ tickers) then tickers else (tickers ++ [t])%list.

(** A list cut down to the first occurrence of each element. *)
Fixpoint first_occurrences (l : list string) : list string :=
  match l with
  | [] => []
  | x :: l' => x :: List.filter (fun y => negb (String.eqb y x)) (first_occurrences l')
  end.

(** The figures of one holding, as [holding_step] computes them. *)
Definition shares_of (h : option Holding) : float :=
  float_or_zero (get_or (h_shares (or_empty h)) (Some 0%float)).

Definition avg_cost_of (h : option Holding) : float :=
  float_or_zero (get_or (h_avg_cost (or_empty h)) (Some 0%float)).

Definition position_cost_of (h : option Holding) : float :=
  (shares_of h * avg_cost_of h)%float.

Definition price_of (quotes : gmap string Quote) (h : option Holding)
    : option float :=
  q_price (quotes_get quotes (get (h_ticker (or_empty h)))).

Definition resolved (quotes : gmap string Quote) (h : option Holding) : bool :=
  match price_of quotes h with Some _ => true | None => false end.

Definition position_value_of (quotes : gmap string Quote) (h : option Holding)
    : float :=
  match price_of quotes h with
  | Some price => (shares_of h * price)%float
  | None => 0%float
  end.

(** The running sum [total += x], from [start], over the holdings with a
    price. *)
Definition sum_resolved (quotes : gmap string Quote)
    (x : option Holding -> float) (start : float) (hs : list (option Holding))
    : float :=
  fold_left (fun total h => (total + x h)%float)
            (List.filter (resolved quotes) hs) start.

(** The output row of a holding, field by field. *)
Definition row_ok (quotes : gmap string Quote) (h : option Holding)
    (row : HoldingOut) : Prop :=
  o_ticker row = get (h_ticker (or_empty h))
  /\ o_shares row = shares_of h
  /\ o_avg_cost row = avg_cost_of h
  /\ o_price row = price_of quotes h
  /\ match price_of quotes h with
     | Some price =>
         let pl := (shares_of h * price - position_cost_of h)%float in
         o_market_value row = Some (shares_of h * price)%float
         /\ o_pl row = Some pl
         /\ o_pl_pct row
            = if (0 <? position_cost_of h)%float
              then Some (pl / position_cost_of h * 100.0)%float
              else None
     | None => o_market_value row = None /\ o_pl row = None /\ o_pl_pct row = None
     end.

(** The totals block on given sums. *)
Definition totals_ok (total_cost total_value : float) (t : Totals) : Prop :=
  t_cost t = total_cost
  /\ t_value t = total_value
  /\ (if (total_cost =? 0)%float && (total_value =? 0)%float
      then t_pl t = 0.0%float /\ t_pl_pct t = None
      else t_pl t = (total_value - total_cost)%float
           /\ t_pl_pct t
              = if (0 <? total_cost)%float
                then Some ((total_value - total_cost) / total_cost * 100.0)%float
                else None).

(** One portfolio of the response against its configuration. *)
Definition portfolio_ok (quotes : gmap string Quote) (pf : Portfolio)
    (po : PortfolioOut) : Prop :=
  Forall2 (row_ok quotes) (holdings_of pf) (po_holdings po)
  /\ totals_ok (sum_resolved quotes position_cost_of 0.0%float (holdings_of pf))
               (sum_resolved quotes (position_value_of quotes) 0.0%float
                  (holdings_of pf))
               (po_totals po).

(** C7 for one portfolio: a holding without a price has no market value,
    no P/L and no P/L percentage, and the totals are the running sums over
    the holdings with a price only. *)
Definition unresolved_left_out (quotes : gmap string Quote) (pf : Portfolio)
    (po : PortfolioOut) : Prop :=
  Forall2 (fun h row =>
             o_price row = price_of quotes h
             /\ (o_price row = None ->
                 o_market_value row = None /\ o_pl row = None
                 /\ o_pl_pct row = None))
          (holdings_of pf) (po_holdings po)
  /\ t_cost (po_totals po)
     = sum_resolved quotes position_cost_of 0.0%float (holdings_of pf)
  /\ t_value (po_totals po)
     = sum_resolved quotes (position_value_of quotes) 0.0%float (holdings_of pf).

(** C9 for one portfolio: no percentage without a cost above zero. *)
Definition pct_guarded (quotes : gmap string Quote) (pf : Portfolio)
    (po : PortfolioOut) : Prop :=
  Forall2 (fun h row =>
             ((0 <? position_cost_of h)%float = false -> o_pl_pct row = None)
             /\ (forall price, price_of quotes h = Some price ->
                 o_pl row
                 = Some (shares_of h * price - position_cost_of h)%float))
          (holdings_of pf) (po_holdings po)
  /\ ((0 <? t_cost (po_totals po))%float = false ->
      t_pl_pct (po_totals po) = None)
  /\ ((t_cost (po_totals po) =? 0)%float = true ->
      (t_value (po_totals po) =? 0)%float = true ->
      t_pl (po_totals po) = 0.0%float /\ t_pl_pct (po_totals po) = None).

(** A history answer that [_hist_try] gets through without an exception. *)
Definition is_ok {A} (o : outcome A) : bool :=
  match o with Ok _ => true | Raise _ => false end.

Definition readable (o : outcome Frame) : bool :=
  match o with
  | Ok None => true
  | Ok (Some rows) =>
      match last rows with
      | Some r => is_ok (row_Close r) && is_ok (ts_utc_isoformat (row_name r))
      | None => true
      end
  | Raise _ => false
  end.

(** A provider none of whose history answers makes [_hist_try] raise. *)
Definition quiet (env : Env) : Prop :=
  forall tr ticker period interval,
    readable (yf_history env tr ticker period interval) = true.

Definition extend (evs : list Event) (w : World) : World :=
  {| _CACHE := _CACHE w; trace := trace w ++ evs |}.

(** What may happen between two calls: cache reads, cache writes and whole
    [get_price] calls; an exception of the latter is the caller's business,
    the world it leaves is kept. *)
Inductive Activity : Type :=
| ActGet (ticker : string)
| ActPut (ticker : string) (price : option float) (interval iso : option string)
| ActGetPrice (ticker : string).

Definition perform (env : Env) (w : World) (a : Activity) : World :=
  match a with
  | ActGet t => snd (_cache_get env t w)
  | ActPut t price interval iso => snd (_cache_put env t price interval iso w)
  | ActGetPrice t => snd (get_price env t w)
  end.

Definition perform_all (env : Env) (acts : list Activity) (w : World) : World :=
  fold_left (perform env) acts w.

(** The activity may execute [_cache_put] for [ticker]. *)
Definition may_put (ticker : string) (a : Activity) : Prop :=
  match a with
  | ActGet _ => False
  | ActPut t _ _ _ | ActGetPrice t => t = ticker
  end.
(** ** Concrete worlds used by the examples *)

Definition empty_world : World := {| _CACHE := ∅; trace := [] |}.

(** A clock that advances one second per interaction with the outside. *)
Definition tick_clock (tr : list Event) : float :=
  fold_left (fun t _ => (t + 1)%float) tr 0%float.

(** A provider that is down: every history query raises. *)
Definition down_env : Env := {|
  time_time := tick_clock;
  yf_history := fun _ _ _ _ => Raise (Exception "ConnectionError");
  yf_fast_info := fun _ _ => Ok (Some 431.5%float);
  utcnow := fun _ => "2024-01-02T15:04:05"
|}.

(** A provider that knows no symbol: empty frames, no snapshot price. *)
Definition blank_env : Env := {|
  time_time := tick_clock;
  yf_history := fun _ _ _ _ => Ok (Some []);
  yf_fast_info := fun _ _ => Ok None;
  utcnow := fun _ => "2024-01-02T15:04:05"
|}.

Definition aware_ts (iso : string) : Timestamp :=
  {| has_tz_convert := true; tz_convert_utc := Ok iso;
     tz_localize_utc := Raise (Exception "TypeError") |}.

Definition bar (close : float) (iso : string) : Row :=
  {| row_Close := Ok close; row_name := aware_ts iso |}.

(** A provider with minute bars for every symbol. *)
Definition live_env : Env := {|
  time_time := tick_clock;
  yf_history := fun _ _ _ _ =>
    Ok (Some [bar 430.25%float "2024-01-02T15:03:00+00:00";
              bar 431%float "2024-01-02T15:04:00+00:00"]);
  yf_fast_info := fun _ _ => Ok (Some 431.5%float);
  utcnow := fun _ => "2024-01-02T15:04:05"
|}.

(** A provider without minute bars: the 1m series is empty. *)
Definition thin_env : Env := {|
  time_time := tick_clock;
  yf_history := fun _ _ _ interval =>
    if String.eqb interval "1m" then Ok (Some [])
    else Ok (Some [bar 18.5%float "2024-01-02T15:00:00+00:00"]);
  yf_fast_info := fun _ _ => Ok None;
  utcnow := fun _ => "2024-01-02T15:04:05"
|}.

(** A provider that has one bar, at the listed price, for the listed
    tickers and nothing for any other. *)
Definition table_env (prices : list (string * float)) : Env := {|
  time_time := tick_clock;
  yf_history := fun _ ticker _ _ =>
    match List.find (fun kv => String.eqb (fst kv) ticker) prices with
    | Some kv => Ok (Some [bar (snd kv) "2024-01-02T15:04:00+00:00"])
    | None => Ok (Some [])
    end;
  yf_fast_info := fun _ _ => Ok None;
  utcnow := fun _ => "2024-01-02T15:04:05"
|}.

(** A holding bought at zero cost. *)
Definition gift_portfolios : Data := {|
  d_portfolios := Val [
    {| pf_name := Val "Gifts"; pf_currency := Absent;
       pf_holdings := Val [holding "QQQ" 3%float 0%float; None] |}
  ]
|}.

(** A tz-naive timestamp: it has [tz_convert], as every timestamp of a
    frame's index has, and [tz_convert] raises [TypeError] on it;
    [tz_localize] would attach the zone. *)
Definition naive_ts (iso : string) : Timestamp :=
  {| has_tz_convert := true;
     tz_convert_utc :=
       Raise (Exception
                "Cannot convert tz-naive Timestamp, use tz_localize to localize");
     tz_localize_utc := Ok iso |}.

Definition naive_bar (close : float) (iso : string) : Row :=
  {| row_Close := Ok close; row_name := naive_ts iso |}.

(** A provider whose series carry a tz-naive index. *)
Definition naive_env : Env := {|
  time_time := tick_clock;
  yf_history := fun _ _ _ _ =>
    Ok (Some [naive_bar 431%float "2024-01-02T00:00:00+00:00"]);
  yf_fast_info := fun _ _ => Ok (Some 431.5%float);
  utcnow := fun _ => "2024-01-02T15:04:05"
|}.

(** A clock that reads 0.1 at first and 10.1 from then on. *)
Definition epoch_env : Env := {|
  time_time := fun tr => match tr with [] => 0.1%float | _ :: _ => 10.1%float end;
  yf_history := fun _ _ _ _ => Ok (Some []);
  yf_fast_info := fun _ _ => Ok None;
  utcnow := fun _ => "1970-01-01T00:00:10"
|}.

(** A provider with nothing but the snapshot price. *)
Definition snapshot_env : Env := {|
  time_time := tick_clock;
  yf_history := fun _ _ _ _ => Ok None;
  yf_fast_info := fun _ _ => Ok (Some 431.5%float);
  utcnow := fun _ => "2024-01-02T15:04:05"
|}.


(** ** Further vocabulary *)

(** A quote is either the no-data triple or has all three fields. *)
Definition complete (q : Quote) : Prop :=
  match q with
  | (Some _, Some _, Some _) | (None, None, None) => True
  | _ => False
  end.

Definition entry_quote (e : Entry) : Quote := (e_p e, e_i e, e_ts e).

Definition cache_complete (c : gmap string Entry) : Prop :=
  forall T e, c !! T = Some e -> complete (entry_quote e).

(** An item of the quote answer that has all the fields the page reads. *)
Definition item_complete (q : QuoteItem) : Prop :=
  match q with
  | QuoteOk _ _ (Some _) (Some _) => True
  | QuoteOk _ _ _ _ => False
  | QuoteError _ error => error = "No data"
  end.


(** Every character of the string is white space. *)
Fixpoint all_space (s : string) : bool :=
  match s with
  | String c s' => isspace c && all_space s'
  | EmptyString => true
  end.

(** Every character of the string is a comma or white space. *)
Fixpoint only_blanks_and_commas (s : string) : bool :=
  match s with
  | String c s' => (Ascii.eqb c ","%char || isspace c) && only_blanks_and_commas s'
  | EmptyString => true
  end.


(** The events of a run of [get_price]'s own provider queries, at most:
    the three history tiers, then the snapshot. *)
Definition fetch_pass (ticker : string) (tiers : list (string * string))
    : list Event :=
  (hist_events ticker tiers ++ [EvFastInfo ticker])%list.

(** * Facts *)

Example get_price_live :
  fst (get_price live_env "QQQ" empty_world)
  = Ok (Some 431%float, Some "1m", Some "2024-01-02T15:04:00+00:00").
Proof. vm_compute. reflexivity. Qed.

Example get_price_snapshot :
  fst (get_price snapshot_env "QQQ" empty_world)
  = Ok (Some 431.5%float, Some "fast_info", Some "2024-01-02T15:04:05+00:00").
Proof. vm_compute. reflexivity. Qed.

Example get_price_blank_trace :
  trace (snd (get_price blank_env "QQQ" empty_world))
  = [EvTime; EvHistory "QQQ" "1d" "1m"; EvHistory "QQQ" "5d" "1h";
     EvHistory "QQQ" "1mo" "1d"; EvFastInfo "QQQ"; EvTime].
Proof. vm_compute. reflexivity. Qed.

Example parse_tickers_example :
  parse_tickers " QQQ , ,NVDA,a b ," = ["QQQ"; "NVDA"; "a b"].
Proof. reflexivity. Qed.

Example split_comma_example : split_comma "a,,b," = ["a"; ""; "b"; ""].
Proof. reflexivity. Qed.

(** The age test rounds: an entry stamped at 0.1 and read at 10.1 is stale,
    the binary64 difference being 10.0, though the two readings as exact
    numbers are less than 10 apart. *)
Example fresh_rounds :
  fresh 10.1%float {| e_p := None; e_i := None; e_ts := None; e_t := 0.1%float |}
  = false
  /\ fresh 10%float {| e_p := None; e_i := None; e_ts := None; e_t := 0.1%float |}
     = true.
Proof. split; reflexivity. Qed.

Section CoreFacts.

Variable env : Env.

(** ** Runs of the cache operations *)

Lemma _cache_get_run (T : string) (w : World) :
  _cache_get env T w
  = (Ok (match _CACHE w !! T with
         | Some c => if fresh (time_time env (trace w)) c then Some c else None
         | None => None
         end),
     log_event EvTime w).
Proof.
  unfold _cache_get, bind, now, cache_lookup. simpl.
  destruct (_CACHE w !! T) as [c|]; [destruct (fresh _ c)|]; reflexivity.
Qed.

Lemma _cache_put_run (T : string) (p : option float) (i ts : option string)
    (w : World) :
  _cache_put env T p i ts w
  = (Ok tt,
     {| _CACHE := <[T := {| e_p := p; e_i := i; e_ts := ts;
                            e_t := time_time env (trace w) |}]> (_CACHE w);
        trace := trace w ++ [EvTime] |}).
Proof. reflexivity. Qed.

Lemma _cache_get_hit (T : string) (w : World) (c : Entry) :
  _CACHE w !! T = Some c ->
  (time_time env (trace w) - e_t c <? 10)%float = true ->
  _cache_get env T w = (Ok (Some c), log_event EvTime w).
Proof.
  intros Hc Hlt. rewrite _cache_get_run, Hc.
  unfold fresh, _CACHE_TTL. rewrite Hlt. reflexivity.
Qed.

Lemma _cache_get_stale (T : string) (w : World) (c : Entry) :
  _CACHE w !! T = Some c ->
  (time_time env (trace w) - e_t c <? 10)%float = false ->
  _cache_get env T w = (Ok None, log_event EvTime w).
Proof.
  intros Hc Hge. rewrite _cache_get_run, Hc.
  unfold fresh, _CACHE_TTL. rewrite Hge. reflexivity.
Qed.

Lemma _cache_get_unseen (T : string) (w : World) :
  _CACHE w !! T = None ->
  _cache_get env T w = (Ok None, log_event EvTime w).
Proof. intros Hc. rewrite _cache_get_run, Hc. reflexivity. Qed.

(** A lookup that answers absent found no entry or a stale one. *)
Lemma _cache_get_miss_inv (T : string) (w : World) :
  fst (_cache_get env T w) = Ok None ->
  _cache_get env T w = (Ok None, log_event EvTime w).
Proof.
  rewrite _cache_get_run. simpl. intros H. congruence.
Qed.

(** ** Runs of the tiered fetch *)

Lemma upstream_calls_app (a b : list Event) :
  upstream_calls (a ++ b) = (upstream_calls a ++ upstream_calls b)%list.
Proof. unfold upstream_calls. apply List.filter_app. Qed.

Lemma upstream_calls_hist_events (T : string) (tiers : list (string * string)) :
  upstream_calls (hist_events T tiers) = hist_events T tiers.
Proof.
  induction tiers as [|[p i] tiers IH]; [reflexivity|].
  unfold upstream_calls in *. simpl. rewrite IH. reflexivity.
Qed.

Lemma extend_nil (w : World) : extend [] w = w.
Proof. destruct w as [c tr]. unfold extend. simpl. rewrite app_nil_r. reflexivity. Qed.

Lemma extend_log_event (e : Event) (evs : list Event) (w : World) :
  extend evs (log_event e w) = extend (e :: evs) w.
Proof.
  unfold extend, log_event. simpl. rewrite <- app_assoc. reflexivity.
Qed.

(** Whatever the provider answers, [_hist_try] changes nothing but the
    trace, by its one query. *)
Lemma _hist_try_world (T p i : string) (w : World) :
  snd (_hist_try env T p i w) = log_event (EvHistory T p i) w.
Proof.
  unfold _hist_try, bind, history, lift. simpl.
  destruct (yf_history env (trace w) T p i) as [[rows|]|e]; simpl; try reflexivity.
  destruct (last rows) as [r|]; simpl; try reflexivity.
  destruct (row_Close r); simpl; try reflexivity.
  destruct (ts_utc_isoformat (row_name r)); reflexivity.
Qed.

Lemma _hist_try_empty (T p i : string) (w : World) :
  is_empty_frame (yf_history env (trace w) T p i) = true ->
  _hist_try env T p i w = (Ok no_data, log_event (EvHistory T p i) w).
Proof.
  unfold _hist_try, bind, history. simpl.
  destruct (yf_history env (trace w) T p i) as [[[|r rows]|]|e]; simpl;
    intros H; try discriminate H; reflexivity.
Qed.

Lemma _hist_try_hit (T p i : string) (w : World) (rows : list Row) (r : Row)
    (price : float) (iso : string) :
  yf_history env (trace w) T p i = Ok (Some rows) ->
  last rows = Some r ->
  row_Close r = Ok price ->
  ts_utc_isoformat (row_name r) = Ok iso ->
  _hist_try env T p i w
  = (Ok (Some price, Some i, Some iso), log_event (EvHistory T p i) w).
Proof.
  intros Hh Hl Hc Hts. unfold _hist_try, bind, history, lift. simpl.
  rewrite Hh, Hl. simpl. rewrite Hc, Hts. reflexivity.
Qed.

(** An exception of the history query leaves [_hist_try] as it came. *)
Lemma _hist_try_raise (T p i : string) (w : World) (e : exn) :
  yf_history env (trace w) T p i = Raise e ->
  _hist_try env T p i w = (Raise e, log_event (EvHistory T p i) w).
Proof.
  intros Hh. unfold _hist_try, bind, history. simpl. rewrite Hh. reflexivity.
Qed.

Lemma hist_loop_skip (T : string) (pre rest : list (string * string)) (w : World) :
  tiers_empty env T (trace w) pre = true ->
  hist_loop env T (pre ++ rest) w
  = hist_loop env T rest (extend (hist_events T pre) w).
Proof.
  revert w. induction pre as [|[p i] pre IH]; intros w H.
  - simpl. rewrite extend_nil. reflexivity.
  - simpl in H. apply andb_true_iff in H as [H1 H2].
    change (((p, i) :: pre) ++ rest)%list with ((p, i) :: (pre ++ rest))%list.
    cbn [hist_loop]. unfold bind at 1.
    rewrite (_hist_try_empty _ _ _ _ H1). cbn [no_data].
    rewrite IH by exact H2.
    rewrite extend_log_event. reflexivity.
Qed.

Lemma hist_loop_hit (T p i : string) (post : list (string * string)) (w : World)
    (rows : list Row) (r : Row) (price : float) (iso : string) :
  yf_history env (trace w) T p i = Ok (Some rows) ->
  last rows = Some r ->
  row_Close r = Ok price ->
  ts_utc_isoformat (row_name r) = Ok iso ->
  hist_loop env T ((p, i) :: post) w
  = (Ok (Some price, Some i, Some iso),
     {| _CACHE := <[T := {| e_p := Some price; e_i := Some i; e_ts := Some iso;
                            e_t := time_time env (trace w ++ [EvHistory T p i]) |}]>
                    (_CACHE w);
        trace := trace w ++ [EvHistory T p i; EvTime] |}).
Proof.
  intros Hh Hl Hc Hts. cbn [hist_loop]. unfold bind at 1.
  rewrite (_hist_try_hit _ _ _ _ _ _ _ _ Hh Hl Hc Hts).
  unfold bind. rewrite _cache_put_run. unfold ret, log_event. simpl.
  rewrite <- app_assoc. reflexivity.
Qed.

Lemma hist_loop_raise (T p i : string) (post : list (string * string)) (w : World)
    (e : exn) :
  yf_history env (trace w) T p i = Raise e ->
  hist_loop env T ((p, i) :: post) w = (Raise e, log_event (EvHistory T p i) w).
Proof.
  intros Hh. cbn [hist_loop]. unfold bind at 1.
  rewrite (_hist_try_raise _ _ _ _ _ Hh). reflexivity.
Qed.

Lemma last_resort_price (T : string) (w : World) (P : float) :
  yf_fast_info env (trace w) T = Ok (Some P) ->
  let ts := utcnow env (trace w ++ [EvFastInfo T]) ++ "+00:00" in
  last_resort env T w
  = (Ok (Some P, Some "fast_info", Some ts),
     {| _CACHE := <[T := {| e_p := Some P; e_i := Some "fast_info"; e_ts := Some ts;
                            e_t := time_time env (trace w ++ [EvFastInfo T; EvUtcNow]) |}]>
                    (_CACHE w);
        trace := trace w ++ [EvFastInfo T; EvUtcNow; EvTime] |}).
Proof.
  intros H ts. unfold last_resort, fast_info_try, try_except, bind,
    fast_info_last_price, utcnow_isoformat. simpl. rewrite H. simpl.
  rewrite <- !app_assoc. reflexivity.
Qed.

Lemma last_resort_none (T : string) (w : World) :
  no_snapshot (yf_fast_info env (trace w) T) = true ->
  last_resort env T w
  = (Ok no_data,
     {| _CACHE := <[T := {| e_p := None; e_i := None; e_ts := None;
                            e_t := time_time env (trace w ++ [EvFastInfo T]) |}]>
                    (_CACHE w);
        trace := trace w ++ [EvFastInfo T; EvTime] |}).
Proof.
  intros H. unfold last_resort, fast_info_try, try_except, bind,
    fast_info_last_price. simpl.
  destruct (yf_fast_info env (trace w) T) as [[P|]|e]; try discriminate H;
    simpl; rewrite <- !app_assoc; reflexivity.
Qed.

Lemma get_price_miss (T : string) (w : World) :
  fst (_cache_get env T w) = Ok None ->
  get_price env T w = hist_loop env T TIERS (log_event EvTime w).
Proof.
  intros H. unfold get_price, bind.
  rewrite (_cache_get_miss_inv _ _ H). reflexivity.
Qed.

Lemma get_price_hit (T : string) (w : World) (c : Entry) :
  _CACHE w !! T = Some c ->
  (time_time env (trace w) - e_t c <? 10)%float = true ->
  get_price env T w = (Ok (e_p c, e_i c, e_ts c), log_event EvTime w).
Proof.
  intros Hc Hlt. unfold get_price, bind.
  rewrite (_cache_get_hit _ _ _ Hc Hlt). reflexivity.
Qed.

End CoreFacts.

(** ** What an operation leaves of the cache *)

Section Frame.

Variable env : Env.

Lemma _cache_get_cache (T : string) (w : World) :
  _CACHE (snd (_cache_get env T w)) = _CACHE w.
Proof. rewrite _cache_get_run. reflexivity. Qed.

Lemma _cache_put_lookup (T T' : string) (p : option float) (i ts : option string)
    (w : World) :
  _CACHE (snd (_cache_put env T p i ts w)) !! T'
  = if decide (T = T')
    then Some {| e_p := p; e_i := i; e_ts := ts; e_t := time_time env (trace w) |}
    else _CACHE w !! T'.
Proof. rewrite _cache_put_run. simpl. apply lookup_insert. Qed.

Lemma last_resort_cache_other (T T' : string) (w : World) :
  T <> T' -> _CACHE (snd (last_resort env T w)) !! T' = _CACHE w !! T'.
Proof.
  intros Hne.
  destruct (yf_fast_info env (trace w) T) as [[P|]|e] eqn:E.
  - rewrite (last_resort_price env T w P E). simpl.
    apply lookup_insert_ne. exact Hne.
  - rewrite last_resort_none by (rewrite E; reflexivity). simpl.
    apply lookup_insert_ne. exact Hne.
  - rewrite last_resort_none by (rewrite E; reflexivity). simpl.
    apply lookup_insert_ne. exact Hne.
Qed.

Lemma hist_loop_cache_other (T T' : string) (tiers : list (string * string))
    (w : World) :
  T <> T' -> _CACHE (snd (hist_loop env T tiers w)) !! T' = _CACHE w !! T'.
Proof.
  intros Hne. revert w. induction tiers as [|[p i] tiers IH]; intros w.
  - apply last_resort_cache_other. exact Hne.
  - cbn [hist_loop]. unfold bind at 1.
    pose proof (_hist_try_world env T p i w) as Hw.
    destruct (_hist_try env T p i w) as [[[[[price|] i'] ts']|e] w'];
      simpl in Hw; subst w'.
    + unfold bind. rewrite _cache_put_run. simpl.
      rewrite lookup_insert_ne by exact Hne. reflexivity.
    + rewrite IH. reflexivity.
    + reflexivity.
Qed.

Lemma get_price_cache_other (T T' : string) (w : World) :
  T <> T' -> _CACHE (snd (get_price env T w)) !! T' = _CACHE w !! T'.
Proof.
  intros Hne. unfold get_price, bind. rewrite _cache_get_run.
  destruct (_CACHE w !! T) as [c|]; [destruct (fresh _ c)|];
    try reflexivity;
    rewrite hist_loop_cache_other by exact Hne; reflexivity.
Qed.

Lemma perform_cache_other (T : string) (a : Activity) (w : World) :
  ~ may_put T a -> _CACHE (perform env w a) !! T = _CACHE w !! T.
Proof.
  destruct a as [t|t p i ts|t]; cbn [perform may_put]; intros Hn.
  - rewrite _cache_get_cache. reflexivity.
  - rewrite _cache_put_lookup. destruct (decide (t = T)); [contradiction|reflexivity].
  - apply get_price_cache_other. exact Hn.
Qed.

Lemma perform_all_cache_other (T : string) (acts : list Activity) (w : World) :
  Forall (fun a => ~ may_put T a) acts ->
  _CACHE (perform_all env acts w) !! T = _CACHE w !! T.
Proof.
  unfold perform_all. intros H. revert w.
  induction H as [|a acts Ha _ IH]; intros w; simpl; [reflexivity|].
  rewrite IH. apply perform_cache_other. exact Ha.
Qed.

End Frame.

(** * The claims on the cache and the fetch *)

Section CoreClaims.

Variable env : Env.

(** C2. A [_cache_put] for [T] followed, after any activity that makes no
    put for [T], by a [_cache_get] whose clock reading is less than 10
    seconds after the put's returns exactly the stored entry (price,
    interval, timestamp, stamped with the put's time). At 10 seconds or
    more the get answers absent and leaves the world exactly as a get on a
    ticker that was never stored does, and the stale entry is still in the
    cache. The seconds elapsed are the binary64 difference of the two
    clock readings, as the source computes them. *)
Theorem cache_put_then_get (T : string) (p : option float) (i ts : option string)
    (acts : list Activity) (w : World) :
  Forall (fun a => ~ may_put T a) acts ->
  let stored := {| e_p := p; e_i := i; e_ts := ts;
                   e_t := time_time env (trace w) |} in
  let w2 := perform_all env acts (snd (_cache_put env T p i ts w)) in
  let elapsed := (time_time env (trace w2) - time_time env (trace w))%float in
  ((elapsed <? 10)%float = true -> fst (_cache_get env T w2) = Ok (Some stored))
  /\ ((elapsed <? 10)%float = false ->
      _cache_get env T w2 = (Ok None, log_event EvTime w2)
      /\ _CACHE (snd (_cache_get env T w2)) !! T = Some stored)
  /\ (forall w', _CACHE w' !! T = None ->
      _cache_get env T w' = (Ok None, log_event EvTime w')).
Proof.
  intros Hacts stored w2 elapsed.
  assert (Hw2 : _CACHE w2 !! T = Some stored).
  { unfold w2. rewrite perform_all_cache_other by exact Hacts.
    rewrite _cache_put_lookup. destruct (decide (T = T)); [reflexivity|contradiction]. }
  split; [|split].
  - intros Hlt. rewrite (_cache_get_hit env T w2 stored Hw2 Hlt). reflexivity.
  - intros Hge.
    rewrite (_cache_get_stale env T w2 stored Hw2 Hge). split; [reflexivity|].
    exact Hw2.
  - intros w' Hnone. apply _cache_get_unseen. exact Hnone.
Qed.

(** The tier order. When the lookup misses, the tiers before
    (period, interval) in [TIERS] come back empty and that tier's series is
    not empty, with a last row whose close can be read and whose timestamp
    converts (a tz-aware one), [get_price] returns the last row's close, the
    tier's interval and the converted timestamp; it has queried exactly the
    tiers up to this one, in the order of [TIERS], and neither a later tier
    nor the snapshot. *)
Lemma first_nonempty_tier_wins (T period interval : string)
    (pre post : list (string * string)) (w : World)
    (rows : list Row) (r : Row) (price : float) (iso : string) :
  TIERS = (pre ++ (period, interval) :: post)%list ->
  fst (_cache_get env T w) = Ok None ->
  tiers_empty env T (trace w ++ [EvTime]) pre = true ->
  yf_history env (trace w ++ EvTime :: hist_events T pre) T period interval
    = Ok (Some rows) ->
  last rows = Some r ->
  row_Close r = Ok price ->
  ts_utc_isoformat (row_name r) = Ok iso ->
  TIERS = [("1d", "1m"); ("5d", "1h"); ("1mo", "1d")]
  /\ fst (get_price env T w) = Ok (Some price, Some interval, Some iso)
  /\ upstream_calls (trace (snd (get_price env T w)))
     = (upstream_calls (trace w)
        ++ hist_events T pre ++ [EvHistory T period interval])%list
  /\ _CACHE (snd (get_price env T w))
     = <[T := {| e_p := Some price; e_i := Some interval; e_ts := Some iso;
                 e_t := time_time env ((trace w ++ EvTime :: hist_events T pre)
                                       ++ [EvHistory T period interval]) |}]>
         (_CACHE w).
Proof.
  intros Htiers Hmiss Hpre Hh Hl Hc Hts.
  split; [reflexivity|].
  rewrite (get_price_miss env T w Hmiss), Htiers.
  rewrite hist_loop_skip by exact Hpre.
  rewrite extend_log_event.
  erewrite hist_loop_hit; [|exact Hh|exact Hl|exact Hc|exact Hts].
  split; [reflexivity|]. split.
  - simpl. rewrite !upstream_calls_app.
    change (upstream_calls (EvTime :: hist_events T pre))
      with (upstream_calls (hist_events T pre)).
    rewrite upstream_calls_hist_events, <- app_assoc. reflexivity.
  - reflexivity.
Qed.

(** C4. When the lookup misses and all three history tiers come back
    empty: if the snapshot gives a price [P], [get_price] returns
    [(P, "fast_info", now)] with [now] the current UTC time in ISO form, and
    caches exactly that; if the snapshot raises or has no price,
    [get_price] returns [(None, None, None)] and caches that no-data
    result. *)
Theorem snapshot_fallback (T : string) (w : World) :
  fst (_cache_get env T w) = Ok None ->
  tiers_empty env T (trace w ++ [EvTime]) TIERS = true ->
  let tr := (trace w ++ EvTime :: hist_events T TIERS)%list in
  (forall P, yf_fast_info env tr T = Ok (Some P) ->
     let ts := utcnow env (tr ++ [EvFastInfo T]) ++ "+00:00" in
     fst (get_price env T w) = Ok (Some P, Some "fast_info", Some ts)
     /\ _CACHE (snd (get_price env T w))
        = <[T := {| e_p := Some P; e_i := Some "fast_info"; e_ts := Some ts;
                    e_t := time_time env (tr ++ [EvFastInfo T; EvUtcNow]) |}]>
            (_CACHE w))
  /\ (no_snapshot (yf_fast_info env tr T) = true ->
      fst (get_price env T w) = Ok (None, None, None)
      /\ _CACHE (snd (get_price env T w))
         = <[T := {| e_p := None; e_i := None; e_ts := None;
                     e_t := time_time env (tr ++ [EvFastInfo T]) |}]>
             (_CACHE w)).
Proof.
  intros Hmiss Hempty tr.
  assert (Hrun : get_price env T w
                 = last_resort env T (extend (EvTime :: hist_events T TIERS) w)).
  { rewrite (get_price_miss env T w Hmiss).
    rewrite <- (app_nil_r TIERS) at 1.
    rewrite hist_loop_skip by exact Hempty.
    rewrite extend_log_event. reflexivity. }
  split.
  - intros P HP ts. rewrite Hrun.
    rewrite (last_resort_price env T (extend (EvTime :: hist_events T TIERS) w) P HP).
    split; reflexivity.
  - intros Hno. rewrite Hrun.
    rewrite (last_resort_none env T (extend (EvTime :: hist_events T TIERS) w) Hno).
    split; reflexivity.
Qed.

(** C6. When a first [get_price] for [T] misses the cache, finds all
    history tiers empty and no snapshot price, it answers
    [(None, None, None)] after one pass over the provider (the three
    history queries and the snapshot query) and caches that answer; a
    second [get_price] for [T] less than 10 seconds after that put, with no
    put for [T] in between, answers [(None, None, None)] from the cache:
    it sends no query to the provider and leaves the cache as it is. The
    seconds elapsed are the binary64 difference of the two clock readings,
    as the source computes them. *)
Theorem no_data_is_cached (T : string) (acts : list Activity) (w : World) :
  fst (_cache_get env T w) = Ok None ->
  tiers_empty env T (trace w ++ [EvTime]) TIERS = true ->
  let tr := (trace w ++ EvTime :: hist_events T TIERS)%list in
  no_snapshot (yf_fast_info env tr T) = true ->
  Forall (fun a => ~ may_put T a) acts ->
  let w1 := snd (get_price env T w) in
  let w2 := perform_all env acts w1 in
  (time_time env (trace w2) - time_time env (tr ++ [EvFastInfo T]) <? 10)%float
  = true ->
  fst (get_price env T w) = Ok (None, None, None)
  /\ upstream_calls (trace w1)
     = (upstream_calls (trace w) ++ hist_events T TIERS ++ [EvFastInfo T])%list
  /\ get_price env T w2 = (Ok (None, None, None), log_event EvTime w2)
  /\ upstream_calls (trace (snd (get_price env T w2))) = upstream_calls (trace w2)
  /\ _CACHE (snd (get_price env T w2)) = _CACHE w2.
Proof.
  intros Hmiss Hempty tr Hno Hacts w1 w2 Hlt.
  assert (Hrun : get_price env T w
                 = last_resort env T (extend (EvTime :: hist_events T TIERS) w)).
  { rewrite (get_price_miss env T w Hmiss).
    rewrite <- (app_nil_r TIERS) at 1.
    rewrite hist_loop_skip by exact Hempty.
    rewrite extend_log_event. reflexivity. }
  rewrite (last_resort_none env T (extend (EvTime :: hist_events T TIERS) w) Hno)
    in Hrun.
  assert (Hw2 : _CACHE w2 !! T
                = Some {| e_p := None; e_i := None; e_ts := None;
                          e_t := time_time env (tr ++ [EvFastInfo T]) |}).
  { unfold w2. rewrite perform_all_cache_other by exact Hacts.
    unfold w1. rewrite Hrun. simpl. apply lookup_insert_eq. }
  pose proof (get_price_hit env T w2 _ Hw2 Hlt) as Hsecond. simpl in Hsecond.
  split; [rewrite Hrun; reflexivity|]. split.
  - unfold w1. rewrite Hrun. cbn [snd trace extend]. rewrite !upstream_calls_app.
    change (upstream_calls (EvTime :: hist_events T TIERS))
      with (upstream_calls (hist_events T TIERS)).
    rewrite upstream_calls_hist_events, <- app_assoc. reflexivity.
  - split; [exact Hsecond|]. rewrite Hsecond. simpl. split; [|reflexivity].
    rewrite upstream_calls_app, app_nil_r. reflexivity.
Qed.

(** C10. With an entry for [T] in the cache: if it is younger than 10
    seconds, [get_price] returns its fields, sends no query to the provider
    and leaves the cache as it is; a [_cache_get] never changes the cache
    nor queries the provider, for any ticker and world; and if the entry is
    10 seconds old or more, the lookup answers absent, the entry stays as
    it is through any activity that makes no put for [T], and the next put
    for [T] replaces it. The age is the binary64 difference of the clock
    reading and the entry's stamp, as the source computes it. *)
Theorem cache_hit_is_effect_free (T : string) (w : World) (c : Entry) :
  _CACHE w !! T = Some c ->
  ((time_time env (trace w) - e_t c <? 10)%float = true ->
     fst (get_price env T w) = Ok (e_p c, e_i c, e_ts c)
     /\ _CACHE (snd (get_price env T w)) = _CACHE w
     /\ upstream_calls (trace (snd (get_price env T w))) = upstream_calls (trace w))
  /\ (forall T' w',
       _CACHE (snd (_cache_get env T' w')) = _CACHE w'
       /\ upstream_calls (trace (snd (_cache_get env T' w')))
          = upstream_calls (trace w'))
  /\ ((time_time env (trace w) - e_t c <? 10)%float = false ->
      fst (_cache_get env T w) = Ok None
      /\ forall acts, Forall (fun a => ~ may_put T a) acts ->
           let w' := perform_all env acts (snd (_cache_get env T w)) in
           _CACHE w' !! T = Some c
           /\ forall p i ts,
                _CACHE (snd (_cache_put env T p i ts w')) !! T
                = Some {| e_p := p; e_i := i; e_ts := ts;
                          e_t := time_time env (trace w') |}).
Proof.
  intros Hc. split; [|split].
  - intros Hlt. rewrite (get_price_hit env T w c Hc Hlt). simpl.
    split; [reflexivity|]. split; [reflexivity|].
    rewrite upstream_calls_app, app_nil_r. reflexivity.
  - intros T' w'. rewrite _cache_get_run. simpl. split; [reflexivity|].
    rewrite upstream_calls_app, app_nil_r. reflexivity.
  - intros Hge. rewrite (_cache_get_stale env T w c Hc Hge). cbn [fst snd].
    split; [reflexivity|]. intros acts Hacts. cbv zeta. split.
    + rewrite perform_all_cache_other by exact Hacts. exact Hc.
    + intros p i ts. rewrite _cache_put_lookup.
      destruct (decide (T = T)); [reflexivity|contradiction].
Qed.

(** An exception of a history query is not caught by [get_price]: it
    leaves with the exception, after that query, with the cache untouched
    and no further tier tried. *)
Lemma get_price_history_exception (T period interval : string)
    (pre post : list (string * string)) (w : World) (e : exn) :
  TIERS = (pre ++ (period, interval) :: post)%list ->
  fst (_cache_get env T w) = Ok None ->
  tiers_empty env T (trace w ++ [EvTime]) pre = true ->
  yf_history env (trace w ++ EvTime :: hist_events T pre) T period interval
    = Raise e ->
  get_price env T w
  = (Raise e,
     extend (EvTime :: hist_events T pre ++ [EvHistory T period interval]) w).
Proof.
  intros Htiers Hmiss Hpre Hh.
  rewrite (get_price_miss env T w Hmiss), Htiers.
  rewrite hist_loop_skip by exact Hpre.
  rewrite extend_log_event.
  rewrite (hist_loop_raise env T period interval post
             (extend (EvTime :: hist_events T pre) w) e Hh).
  unfold log_event, extend. simpl. rewrite <- app_assoc. reflexivity.
Qed.

End CoreClaims.

(** C1 (the code does not do this). With a provider whose history query
    raises, [get_price "QQQ"] on an empty cache raises that exception after
    the first history query: no later tier and no snapshot is tried, though
    the snapshot has a price, and nothing is cached. *)
Theorem get_price_raises_when_history_raises :
  get_price down_env "QQQ" empty_world
  = (Raise (Exception "ConnectionError"),
     {| _CACHE := ∅; trace := [EvTime; EvHistory "QQQ" "1d" "1m"] |})
  /\ yf_fast_info down_env [] "QQQ" = Ok (Some 431.5%float).
Proof. split; reflexivity. Qed.

(** C3 (the code does not do this). With a first tier that is not empty
    and whose index is tz-naive, [get_price "QQQ"] on an empty cache raises
    the [TypeError] of [tz_convert]: it returns no price, caches nothing
    and tries nothing else. [tz_localize], which would have attached the
    UTC zone, is never called, every such timestamp having [tz_convert]. *)
Theorem get_price_raises_on_naive_timestamp :
  yf_history naive_env [EvTime] "QQQ" "1d" "1m"
  = Ok (Some [naive_bar 431%float "2024-01-02T00:00:00+00:00"])
  /\ get_price naive_env "QQQ" empty_world
     = (Raise (Exception
                 "Cannot convert tz-naive Timestamp, use tz_localize to localize"),
        {| _CACHE := ∅; trace := [EvTime; EvHistory "QQQ" "1d" "1m"] |})
  /\ tz_localize_utc (row_name (naive_bar 431%float "2024-01-02T00:00:00+00:00"))
     = Ok "2024-01-02T00:00:00+00:00".
Proof. repeat split; reflexivity. Qed.

Lemma cache_put_then_get_witness :
  fst (_cache_get live_env "QQQ"
         (perform_all live_env [ActGet "NVDA"; ActGetPrice "NVDA"]
            (snd (_cache_put live_env "QQQ" (Some 431%float) (Some "1m") None
                    empty_world))))
  = Ok (Some {| e_p := Some 431%float; e_i := Some "1m"; e_ts := None;
                e_t := 0%float |})
  /\ fst (_cache_get live_env "QQQ"
            (perform_all live_env (List.repeat (ActGet "NVDA") 12)
               (snd (_cache_put live_env "QQQ" (Some 431%float) (Some "1m") None
                       empty_world))))
     = Ok None
  /\ fst (_cache_get epoch_env "QQQ"
            (snd (_cache_put epoch_env "QQQ" (Some 431%float) (Some "1m") None
                    empty_world)))
     = Ok None.
Proof.
  split; [|split].
  - apply (cache_put_then_get live_env "QQQ" (Some 431%float) (Some "1m") None
             [ActGet "NVDA"; ActGetPrice "NVDA"] empty_world).
    + repeat constructor; simpl; intros H; try discriminate H; exact H.
    + vm_compute. reflexivity.
  - refine (f_equal fst (proj1 (proj1 (proj2
      (cache_put_then_get live_env "QQQ" (Some 431%float) (Some "1m") None
         (List.repeat (ActGet "NVDA") 12) empty_world _)) _))).
    + repeat constructor; simpl; intros H; exact H.
    + vm_compute. reflexivity.
  - refine (f_equal fst (proj1 (proj1 (proj2
      (cache_put_then_get epoch_env "QQQ" (Some 431%float) (Some "1m") None
         [] empty_world _)) _))).
    + constructor.
    + vm_compute. reflexivity.
Defined.

Lemma first_nonempty_tier_wins_witness :
  (fst (get_price live_env "QQQ" empty_world)
   = Ok (Some 431%float, Some "1m", Some "2024-01-02T15:04:00+00:00")
   /\ upstream_calls (trace (snd (get_price live_env "QQQ" empty_world)))
      = [EvHistory "QQQ" "1d" "1m"])
  /\ (fst (get_price thin_env "HHIS.TO" empty_world)
      = Ok (Some 18.5%float, Some "1h", Some "2024-01-02T15:00:00+00:00")
      /\ upstream_calls (trace (snd (get_price thin_env "HHIS.TO" empty_world)))
         = [EvHistory "HHIS.TO" "1d" "1m"; EvHistory "HHIS.TO" "5d" "1h"]).
Proof.
  split.
  - edestruct (first_nonempty_tier_wins live_env "QQQ" "1d" "1m"
                 [] [("5d", "1h"); ("1mo", "1d")] empty_world
                 [bar 430.25%float "2024-01-02T15:03:00+00:00";
                  bar 431%float "2024-01-02T15:04:00+00:00"]
                 (bar 431%float "2024-01-02T15:04:00+00:00")
                 431%float "2024-01-02T15:04:00+00:00")
      as (_ & Hres & Hcalls & _); [reflexivity .. |].
    split; [exact Hres | exact Hcalls].
  - edestruct (first_nonempty_tier_wins thin_env "HHIS.TO" "5d" "1h"
                 [("1d", "1m")] [("1mo", "1d")] empty_world
                 [bar 18.5%float "2024-01-02T15:00:00+00:00"]
                 (bar 18.5%float "2024-01-02T15:00:00+00:00")
                 18.5%float "2024-01-02T15:00:00+00:00")
      as (_ & Hres & Hcalls & _); [reflexivity .. |].
    split; [exact Hres | exact Hcalls].
Defined.

Lemma snapshot_fallback_witness :
  fst (get_price snapshot_env "QQQ" empty_world)
  = Ok (Some 431.5%float, Some "fast_info", Some "2024-01-02T15:04:05+00:00")
  /\ fst (get_price blank_env "QQQ" empty_world) = Ok (None, None, None)
  /\ fst (get_price thin_env "ZZZ" {| _CACHE := ∅; trace := [] |})
     = Ok (Some 18.5%float, Some "1h", Some "2024-01-02T15:00:00+00:00").
Proof.
  split; [|split].
  - destruct (snapshot_fallback snapshot_env "QQQ" empty_world) as [Hprice _];
      [reflexivity .. |].
    destruct (Hprice 431.5%float) as [Hres _]; [reflexivity|]. exact Hres.
  - destruct (snapshot_fallback blank_env "QQQ" empty_world) as [_ Hnone];
      [reflexivity .. |].
    destruct Hnone as [Hres _]; [reflexivity|]. exact Hres.
  - reflexivity.
Defined.

Lemma no_data_is_cached_witness :
  fst (get_price blank_env "QQQ" empty_world) = Ok (None, None, None)
  /\ upstream_calls (trace (snd (get_price blank_env "QQQ" empty_world)))
     = [EvHistory "QQQ" "1d" "1m"; EvHistory "QQQ" "5d" "1h";
        EvHistory "QQQ" "1mo" "1d"; EvFastInfo "QQQ"]
  /\ upstream_calls
       (trace (snd (get_price blank_env "QQQ"
                      (snd (get_price blank_env "QQQ" empty_world)))))
     = [EvHistory "QQQ" "1d" "1m"; EvHistory "QQQ" "5d" "1h";
        EvHistory "QQQ" "1mo" "1d"; EvFastInfo "QQQ"].
Proof.
  destruct (no_data_is_cached blank_env "QQQ" [] empty_world)
    as (Hfirst & Hcalls & _ & Hsecond & _).
  - reflexivity.
  - reflexivity.
  - reflexivity.
  - constructor.
  - vm_compute. reflexivity.
  - split; [exact Hfirst|]. split; [exact Hcalls|].
    etransitivity; [exact Hsecond | exact Hcalls].
Defined.

Lemma cache_hit_is_effect_free_witness :
  let w := snd (get_price live_env "QQQ" empty_world) in
  let c := {| e_p := Some 431%float; e_i := Some "1m";
              e_ts := Some "2024-01-02T15:04:00+00:00"; e_t := 2%float |} in
  (fst (get_price live_env "QQQ" w) = Ok (e_p c, e_i c, e_ts c)
   /\ _CACHE (snd (get_price live_env "QQQ" w)) = _CACHE w
   /\ upstream_calls (trace (snd (get_price live_env "QQQ" w)))
      = upstream_calls (trace w))
  /\ (let w_late := perform_all live_env (List.repeat (ActGet "NVDA") 12) w in
      fst (_cache_get live_env "QQQ" w_late) = Ok None).
Proof.
  intros w c. split.
  - apply (cache_hit_is_effect_free live_env "QQQ" w c).
    + vm_compute. reflexivity.
    + vm_compute. reflexivity.
  - intros w_late.
    assert (Hc : _CACHE w_late !! "QQQ" = Some c) by (vm_compute; reflexivity).
    destruct (cache_hit_is_effect_free live_env "QQQ" w_late c Hc)
      as (_ & _ & Hstale).
    destruct Hstale as [Hnone _].
    + vm_compute. reflexivity.
    + exact Hnone.
Defined.

(** * The aggregation of [api_portfolios] *)

(** A float above zero is not zero: the guard [cost > 0] excludes the
    divisor on which Python's [/] raises. *)
Lemma positive_nonzero (x : float) :
  (0 <? x)%float = true -> (x =? 0)%float = false.
Proof.
  rewrite FloatAxioms.ltb_spec, FloatAxioms.eqb_spec.
  unfold SFltb, SFeqb.
  replace (Prim2SF 0%float) with (S754_zero false) by reflexivity.
  destruct (Prim2SF x) as [s|s| |s m e]; simpl; try destruct s; simpl; congruence.
Qed.

Lemma py_div_positive (a b : float) :
  (0 <? b)%float = true -> py_div a b = Ok (a / b)%float.
Proof.
  intros H. unfold py_div. rewrite (positive_nonzero b H). reflexivity.
Qed.

Lemma pct_if_positive_run (pl cost : float) :
  pct_if_positive pl cost
  = Ok (if (0 <? cost)%float then Some (pl / cost * 100.0)%float else None).
Proof.
  unfold pct_if_positive. destruct (0 <? cost)%float eqn:E; [|reflexivity].
  rewrite (py_div_positive pl cost E). reflexivity.
Qed.

Lemma sum_resolved_cons (quotes : gmap string Quote) (x : option Holding -> float)
    (start : float) (h : option Holding) (hs : list (option Holding)) :
  sum_resolved quotes x start (h :: hs)
  = sum_resolved quotes x
      (if resolved quotes h then (start + x h)%float else start) hs.
Proof.
  unfold sum_resolved. simpl. destruct (resolved quotes h); reflexivity.
Qed.

Lemma holding_step_run (quotes : gmap string Quote) (rows : list HoldingOut)
    (tc tv : float) (h : option Holding) :
  exists row,
    holding_step quotes (rows, tc, tv) h
    = Ok ((rows ++ [row])%list,
          if resolved quotes h then (tc + position_cost_of h)%float else tc,
          if resolved quotes h then (tv + position_value_of quotes h)%float else tv)
    /\ row_ok quotes h row.
Proof.
  unfold holding_step, resolved, position_value_of, row_ok.
  fold (shares_of h) (avg_cost_of h). fold (position_cost_of h).
  fold (price_of quotes h).
  destruct (price_of quotes h) as [price|].
  - rewrite pct_if_positive_run. eexists. split; [reflexivity|].
    simpl. repeat split; reflexivity.
  - eexists. split; [reflexivity|]. simpl. repeat split; reflexivity.
Qed.

Lemma holdings_loop_run (quotes : gmap string Quote) (hs : list (option Holding)) :
  forall (rows : list HoldingOut) (tc tv : float),
  exists rows',
    holdings_loop quotes (rows, tc, tv) hs
    = Ok ((rows ++ rows')%list,
          sum_resolved quotes position_cost_of tc hs,
          sum_resolved quotes (position_value_of quotes) tv hs)
    /\ Forall2 (row_ok quotes) hs rows'.
Proof.
  induction hs as [|h hs IH]; intros rows tc tv.
  - exists []. rewrite app_nil_r. split; [reflexivity|constructor].
  - destruct (holding_step_run quotes rows tc tv h) as (row & Hstep & Hrow).
    cbn [holdings_loop]. rewrite Hstep.
    destruct (IH (rows ++ [row])%list
                (if resolved quotes h then (tc + position_cost_of h)%float else tc)
                (if resolved quotes h
                 then (tv + position_value_of quotes h)%float else tv))
      as (rows' & Hloop & Hrows).
    exists (row :: rows'). rewrite Hloop, !sum_resolved_cons, <- app_assoc.
    split; [reflexivity|]. constructor; assumption.
Qed.

Lemma totals_of_run (tc tv : float) :
  exists t, totals_of tc tv = Ok t /\ totals_ok tc tv t.
Proof.
  unfold totals_of, totals_ok.
  destruct ((tc =? 0)%float && (tv =? 0)%float).
  - eexists. split; [reflexivity|]. simpl. repeat split; reflexivity.
  - rewrite pct_if_positive_run. eexists. split; [reflexivity|].
    simpl. repeat split; reflexivity.
Qed.

Section Aggregation.

Variable env : Env.

(** One portfolio's payload is always produced: the computation raises
    nothing and only reads the UTC clock. *)
Lemma portfolio_payload_run (quotes : gmap string Quote) (pf : Portfolio)
    (w : World) :
  exists po,
    portfolio_payload env quotes pf w = (Ok po, log_event EvUtcNow w)
    /\ portfolio_ok quotes pf po.
Proof.
  unfold portfolio_payload, bind, lift.
  destruct (holdings_loop_run quotes (holdings_of pf) [] 0.0%float 0.0%float)
    as (rows & Hloop & Hrows).
  rewrite Hloop. simpl.
  destruct (totals_of_run
              (sum_resolved quotes position_cost_of 0.0%float (holdings_of pf))
              (sum_resolved quotes (position_value_of quotes) 0.0%float
                 (holdings_of pf)))
    as (t & Ht & Htok).
  rewrite Ht. simpl. eexists. split; [reflexivity|].
  split; simpl; assumption.
Qed.

Lemma payload_loop_run (quotes : gmap string Quote) (pfs : list Portfolio) :
  forall (acc : list PortfolioOut) (w : World),
  exists pos,
    fst (payload_loop env quotes pfs acc w) = Ok (acc ++ pos)%list
    /\ Forall2 (portfolio_ok quotes) pfs pos.
Proof.
  induction pfs as [|pf pfs IH]; intros acc w.
  - exists []. rewrite app_nil_r. split; [reflexivity|constructor].
  - destruct (portfolio_payload_run quotes pf w) as (po & Hpo & Hok).
    cbn [payload_loop]. unfold bind at 1. rewrite Hpo.
    destruct (IH (acc ++ [po])%list (log_event EvUtcNow w)) as (pos & Hloop & Hpos).
    exists (po :: pos). rewrite Hloop, <- app_assoc.
    split; [reflexivity|]. constructor; assumption.
Qed.

End Aggregation.

Section AggregationClaims.

Variable env : Env.

(** Once the prefetch has gone through, [api_portfolios] answers 200 with
    one payload per configured portfolio. *)
Lemma api_portfolios_on_run (data : Data) (w : World) (quotes : gmap string Quote) :
  fst (prefetch env (collect_tickers (portfolios_of data)) ∅ w) = Ok quotes ->
  exists body,
    fst (api_portfolios_on env data w) = Http200 body
    /\ Forall2 (portfolio_ok quotes) (portfolios_of data) body.
Proof.
  intros Hpre. unfold api_portfolios_on, respond.
  destruct (portfolios_of data) as [|pf pfs] eqn:Epfs.
  - exists []. split; [reflexivity|constructor].
  - unfold bind.
    destruct (prefetch env (collect_tickers (pf :: pfs)) ∅ w) as [[q|e] w1];
      simpl in Hpre; [|discriminate Hpre].
    injection Hpre as ->.
    destruct (payload_loop_run env quotes (pf :: pfs) [] w1) as (pos & Hloop & Hok).
    destruct (payload_loop env quotes (pf :: pfs) [] w1) as [[a|[d]] w2];
      simpl in Hloop; [|discriminate Hloop].
    injection Hloop as ->. exists pos. split; [reflexivity|exact Hok].
Qed.

(** An exception of the prefetch becomes the 500 answer. *)
Lemma api_portfolios_on_raise (data : Data) (w : World) (detail : string) :
  fst (prefetch env (collect_tickers (portfolios_of data)) ∅ w)
    = Raise (Exception detail) ->
  fst (api_portfolios_on env data w) = Http500 "api_portfolios_failed" detail.
Proof.
  intros Hpre. unfold api_portfolios_on, respond.
  destruct (portfolios_of data) as [|pf pfs] eqn:Epfs.
  - simpl in Hpre. discriminate Hpre.
  - unfold bind.
    destruct (prefetch env (collect_tickers (pf :: pfs)) ∅ w) as [[q|e] w1];
      simpl in Hpre; [discriminate Hpre|].
    injection Hpre as ->. reflexivity.
Qed.

Lemma row_ok_left_out (quotes : gmap string Quote) (h : option Holding)
    (row : HoldingOut) :
  row_ok quotes h row ->
  o_price row = price_of quotes h
  /\ (o_price row = None ->
      o_market_value row = None /\ o_pl row = None /\ o_pl_pct row = None).
Proof.
  intros (_ & _ & _ & Hp & Hrest). split; [exact Hp|].
  rewrite Hp. intros Hnone. rewrite Hnone in Hrest. exact Hrest.
Qed.

Lemma row_ok_guarded (quotes : gmap string Quote) (h : option Holding)
    (row : HoldingOut) :
  row_ok quotes h row ->
  ((0 <? position_cost_of h)%float = false -> o_pl_pct row = None)
  /\ (forall price, price_of quotes h = Some price ->
      o_pl row = Some (shares_of h * price - position_cost_of h)%float).
Proof.
  intros (_ & _ & _ & _ & Hrest). split.
  - intros Hcost. destruct (price_of quotes h) as [price|].
    + destruct Hrest as (_ & _ & Hpct). rewrite Hpct, Hcost. reflexivity.
    + destruct Hrest as (_ & _ & Hpct). exact Hpct.
  - intros price Hprice. rewrite Hprice in Hrest.
    destruct Hrest as (_ & Hpl & _). exact Hpl.
Qed.

Lemma portfolio_ok_left_out (quotes : gmap string Quote) (pf : Portfolio)
    (po : PortfolioOut) :
  portfolio_ok quotes pf po -> unresolved_left_out quotes pf po.
Proof.
  intros [Hrows (Hc & Hv & _)]. split; [|split; assumption].
  eapply Forall2_impl; [exact Hrows|]. intros h row. apply row_ok_left_out.
Qed.

Lemma portfolio_ok_guarded (quotes : gmap string Quote) (pf : Portfolio)
    (po : PortfolioOut) :
  portfolio_ok quotes pf po -> pct_guarded quotes pf po.
Proof.
  intros [Hrows (Hc & Hv & Ht)]. split; [|split].
  - eapply Forall2_impl; [exact Hrows|]. intros h row. apply row_ok_guarded.
  - rewrite Hc. intros Hcost.
    destruct (_ && _); [exact (proj2 Ht)|].
    destruct Ht as [_ Hpct]. rewrite Hpct, Hcost. reflexivity.
  - rewrite Hc, Hv. intros Hz1 Hz2. rewrite Hz1, Hz2 in Ht. exact Ht.
Qed.

(** C7. When the prefetch has gone through with the quotes [quotes],
    [api_portfolios] answers 200 and, in every portfolio of the answer, a
    holding whose price is [None] has [market_value], [pl] and [pl_pct]
    [None], and the totals [cost] and [value] are the sums, in holding
    order from 0.0, over the holdings with a price only. *)
Theorem unresolved_holdings_left_out (data : Data) (w : World)
    (quotes : gmap string Quote) :
  fst (prefetch env (collect_tickers (portfolios_of data)) ∅ w) = Ok quotes ->
  exists body,
    fst (api_portfolios_on env data w) = Http200 body
    /\ Forall2 (unresolved_left_out quotes) (portfolios_of data) body.
Proof.
  intros Hpre.
  destruct (api_portfolios_on_run data w quotes Hpre) as (body & Hbody & Hok).
  exists body. split; [exact Hbody|].
  eapply Forall2_impl; [exact Hok|]. apply portfolio_ok_left_out.
Qed.

(** C9. The percentage guard [cost > 0] never lets a zero divisor through,
    so the aggregation never raises: when the prefetch has gone through,
    [api_portfolios] answers 200, and in every portfolio of the answer a
    holding whose position cost is not above zero has [pl_pct] [None], also
    when its price resolved and its [pl] is computed; [totals.pl_pct] is
    [None] when the total cost is not above zero; and when total cost and
    total value are both zero, [totals.pl] is 0.0 and [totals.pl_pct] is
    [None]. *)
Theorem pl_pct_needs_positive_cost (data : Data) (w : World)
    (quotes : gmap string Quote) :
  fst (prefetch env (collect_tickers (portfolios_of data)) ∅ w) = Ok quotes ->
  (forall pl cost, exists pct, pct_if_positive pl cost = Ok pct)
  /\ (forall a b, (0 <? b)%float = true -> py_div a b = Ok (a / b)%float)
  /\ exists body,
       fst (api_portfolios_on env data w) = Http200 body
       /\ Forall2 (pct_guarded quotes) (portfolios_of data) body.
Proof.
  intros Hpre. split; [|split].
  - intros pl cost. eexists. apply pct_if_positive_run.
  - apply py_div_positive.
  - destruct (api_portfolios_on_run data w quotes Hpre) as (body & Hbody & Hok).
    exists body. split; [exact Hbody|].
    eapply Forall2_impl; [exact Hok|]. apply portfolio_ok_guarded.
Qed.

End AggregationClaims.

(** * The enumeration of the tickers *)

Lemma filter_filter_ext (P Q R : string -> bool) (l : list string) :
  (forall y, R y = Q y && P y) ->
  List.filter P (List.filter Q l) = List.filter R l.
Proof.
  intros H. induction l as [|x l IH]; [reflexivity|].
  simpl. rewrite (H x). destruct (Q x); simpl; [|exact IH].
  destruct (P x); rewrite IH; reflexivity.
Qed.

Lemma filter_all (P : string -> bool) (l : list string) :
  (forall y, P y = true) -> List.filter P l = l.
Proof.
  intros H. induction l as [|x l IH]; [reflexivity|].
  simpl. rewrite (H x), IH. reflexivity.
Qed.

Lemma append_ticker_listed (tickers : list string) (h : option Holding) :
  append_ticker tickers h = fold_left note_ticker (listed_ticker h) tickers.
Proof.
  unfold append_ticker, listed_ticker, note_ticker.
  destruct (get (h_ticker (or_empty h))) as [t|]; [|reflexivity].
  destruct (truthy t); [|reflexivity]. simpl.
  destruct (bool_decide (t ∈ tickers)); reflexivity.
Qed.

Lemma fold_append_ticker_listed (hs : list (option Holding)) :
  forall tickers,
    fold_left append_ticker hs tickers
    = fold_left note_ticker (List.flat_map listed_ticker hs) tickers.
Proof.
  induction hs as [|h hs IH]; intros tickers; [reflexivity|].
  simpl. rewrite fold_left_app, IH, append_ticker_listed. reflexivity.
Qed.

Lemma collect_tickers_listed (pfs : list Portfolio) :
  forall tickers,
    fold_left (fun tickers pf => fold_left append_ticker (holdings_of pf) tickers)
              pfs tickers
    = fold_left note_ticker (listed_tickers pfs) tickers.
Proof.
  induction pfs as [|pf pfs IH]; intros tickers; [reflexivity|].
  unfold listed_tickers in *. simpl.
  rewrite fold_left_app, IH, fold_append_ticker_listed. reflexivity.
Qed.

Lemma fold_note_ticker (l : list string) :
  forall tickers,
    fold_left note_ticker l tickers
    = (tickers
       ++ List.filter (fun y => negb (bool_decide (y ∈ tickers)))
                      (first_occurrences l))%list.
Proof.
  induction l as [|x l IH]; intros tickers.
  - simpl. rewrite app_nil_r. reflexivity.
  - cbn [fold_left first_occurrences List.filter]. rewrite IH.
    unfold note_ticker. destruct (bool_decide_reflect (x ∈ tickers)) as [Hin|Hnin].
    + cbn [negb]. f_equal. symmetry. apply filter_filter_ext.
      intros y. destruct (bool_decide_reflect (y ∈ tickers)) as [Hy|Hy]; simpl.
      * rewrite andb_false_r. reflexivity.
      * destruct (String.eqb_spec y x) as [->|_]; [contradiction|reflexivity].
    + cbn [negb]. rewrite <- app_assoc. cbn [app]. do 2 f_equal.
      symmetry. apply filter_filter_ext.
      intros y. destruct (String.eqb_spec y x) as [->|Hne]; simpl.
      * apply negb_false_iff, bool_decide_eq_true, elem_of_app.
        right. apply list_elem_of_singleton. reflexivity.
      * destruct (bool_decide_reflect (y ∈ tickers)) as [Hy|Hy]; simpl.
        -- apply negb_false_iff, bool_decide_eq_true, elem_of_app.
           left. exact Hy.
        -- apply negb_true_iff, bool_decide_eq_false, not_elem_of_app.
           split; [exact Hy|]. rewrite list_elem_of_singleton. exact Hne.
Qed.

(** The loops of [collect_tickers] keep the first occurrence of every
    non-blank ticker, in the order of the configuration. *)
Lemma collect_tickers_first_occurrences (pfs : list Portfolio) :
  collect_tickers pfs = first_occurrences (listed_tickers pfs).
Proof.
  unfold collect_tickers. rewrite collect_tickers_listed, fold_note_ticker.
  simpl. apply filter_all. intros y. reflexivity.
Qed.

Lemma first_occurrences_In (l : list string) (x : string) :
  List.In x (first_occurrences l) <-> List.In x l.
Proof.
  induction l as [|a l IH]; [reflexivity|].
  simpl. rewrite List.filter_In, IH. split.
  - intros [H|[H _]]; [left|right]; assumption.
  - intros [H|H]; [left; exact H|].
    destruct (String.eqb_spec x a) as [->|Hne]; [left; reflexivity|].
    right. split; [exact H|reflexivity].
Qed.

Lemma first_occurrences_NoDup (l : list string) : NoDup (first_occurrences l).
Proof.
  induction l as [|a l IH]; [constructor|].
  simpl. constructor.
  - rewrite list_elem_of_In, List.filter_In. intros [_ H].
    rewrite String.eqb_refl in H. discriminate H.
  - apply NoDup_ListNoDup, List.NoDup_filter, NoDup_ListNoDup. exact IH.
Qed.

(** * The endpoints *)

Section EndpointFacts.

Variable env : Env.

Lemma _hist_try_quiet (T p i : string) (w : World) :
  readable (yf_history env (trace w) T p i) = true ->
  exists q, _hist_try env T p i w = (Ok q, log_event (EvHistory T p i) w).
Proof.
  unfold _hist_try, bind, history, lift, readable. simpl.
  destruct (yf_history env (trace w) T p i) as [[rows|]|e]; simpl.
  - destruct (last rows) as [r|]; [|intros _; eexists; reflexivity].
    destruct (row_Close r); simpl; [|discriminate].
    destruct (ts_utc_isoformat (row_name r)); simpl; [|discriminate].
    intros _. eexists. reflexivity.
  - intros _. eexists. reflexivity.
  - discriminate.
Qed.

(** The last resort never raises. *)
Lemma last_resort_total (T : string) (w : World) :
  exists q w', last_resort env T w = (Ok q, w').
Proof.
  destruct (yf_fast_info env (trace w) T) as [[P|]|e] eqn:E.
  - rewrite (last_resort_price env T w P E). eexists _, _. reflexivity.
  - rewrite last_resort_none by (rewrite E; reflexivity). eexists _, _. reflexivity.
  - rewrite last_resort_none by (rewrite E; reflexivity). eexists _, _. reflexivity.
Qed.

Lemma hist_loop_quiet (T : string) (tiers : list (string * string)) :
  quiet env -> forall w, exists q w', hist_loop env T tiers w = (Ok q, w').
Proof.
  intros Hq. induction tiers as [|[p i] tiers IH]; intros w.
  - apply last_resort_total.
  - cbn [hist_loop]. unfold bind at 1.
    destruct (_hist_try_quiet T p i w (Hq _ _ _ _)) as [[[price i'] ts'] Hq1].
    rewrite Hq1. destruct price as [price|].
    + unfold bind. rewrite _cache_put_run. eexists _, _. reflexivity.
    + apply IH.
Qed.

(** With a quiet provider [get_price] always returns a quote. *)
Lemma get_price_quiet (T : string) (w : World) :
  quiet env -> exists q w', get_price env T w = (Ok q, w').
Proof.
  intros Hq. unfold get_price, bind. rewrite _cache_get_run.
  destruct (_CACHE w !! T) as [c|]; [destruct (fresh _ c)|].
  - eexists _, _. reflexivity.
  - apply hist_loop_quiet. exact Hq.
  - apply hist_loop_quiet. exact Hq.
Qed.

Lemma quote_loop_tickers (tickers : list string) :
  forall out w out' w',
    quote_loop env tickers out w = (Ok out', w') ->
    List.map item_ticker out' = (List.map item_ticker out ++ tickers)%list.
Proof.
  induction tickers as [|t tickers IH]; intros out w out' w' H.
  - simpl in H. injection H as <- _. rewrite app_nil_r. reflexivity.
  - cbn [quote_loop] in H. unfold bind at 1 in H.
    destruct (get_price env t w) as [[[[[p|] i] ts]|e] w1]; [| |discriminate H].
    + apply IH in H. rewrite H, List.map_app, <- app_assoc. reflexivity.
    + apply IH in H. rewrite H, List.map_app, <- app_assoc. reflexivity.
Qed.

Lemma quote_loop_quiet (tickers : list string) :
  quiet env ->
  forall out w, exists out' w', quote_loop env tickers out w = (Ok out', w').
Proof.
  intros Hq. induction tickers as [|t tickers IH]; intros out w.
  - eexists _, _. reflexivity.
  - cbn [quote_loop]. unfold bind at 1.
    destruct (get_price_quiet t w Hq) as ([[p i] ts] & w1 & Hg). rewrite Hg.
    destruct p as [p|]; apply IH.
Qed.

Lemma prefetch_quiet (tickers : list string) :
  quiet env ->
  forall quotes w, exists quotes' w',
    prefetch env tickers quotes w = (Ok quotes', w').
Proof.
  intros Hq. induction tickers as [|t tickers IH]; intros quotes w.
  - eexists _, _. reflexivity.
  - cbn [prefetch]. unfold bind at 1.
    destruct (get_price_quiet t w Hq) as (q & w1 & Hg). rewrite Hg. apply IH.
Qed.

(** No ticker to quote: the empty list, and nothing else happens. *)
Lemma api_quote_on_no_ticker (data : Data) (tickers_arg : option string)
    (w : World) :
  quote_tickers data tickers_arg = [] ->
  api_quote_on env data tickers_arg w = (Http200 [], w).
Proof.
  intros H. unfold api_quote_on, respond. rewrite H. reflexivity.
Qed.

Lemma api_portfolios_on_no_portfolio (data : Data) (w : World) :
  portfolios_of data = [] ->
  api_portfolios_on env data w = (Http200 [], w).
Proof.
  intros H. unfold api_portfolios_on, respond. rewrite H. reflexivity.
Qed.

End EndpointFacts.

Lemma load_portfolios_unconfigured (file : PortfolioFile) :
  configured file = [] -> load_portfolios file = DEMO_PORTFOLIOS.
Proof.
  destruct file as [| |[[[| |[|pf pfs]]]|]]; try reflexivity.
  intros H. discriminate H.
Qed.

Lemma load_portfolios_configured (data : Data) :
  portfolios_of data <> [] -> load_portfolios (FileJson (Some data)) = data.
Proof.
  destruct data as [[| |[|pf pfs]]]; simpl; try contradiction. reflexivity.
Qed.

Lemma load_portfolios_never_empty (file : PortfolioFile) :
  portfolios_of (load_portfolios file) <> [].
Proof.
  destruct file as [| |[[[| |[|pf pfs]]]|]]; discriminate.
Qed.

Section EndpointClaims.

Variable env : Env.

(** C5, as the code has it. A configuration without portfolios (no file, a
    file that cannot be read, a top level that is not an object, no or an
    empty [portfolios] list) makes [load_portfolios] return the built-in demo
    portfolios, so both endpoints answer for the demo portfolios. The
    endpoints themselves answer the empty list, with status 200 and without
    touching the cache or the provider, when the loaded data yields no
    ticker ([api_quote]) or has no portfolio ([api_portfolios]); but
    [load_portfolios] never returns data without portfolios. *)
Theorem unconfigured_serves_demo (file : PortfolioFile) (w : World) :
  configured file = [] ->
  load_portfolios file = DEMO_PORTFOLIOS
  /\ api_quote env file None w = api_quote_on env DEMO_PORTFOLIOS None w
  /\ api_portfolios env file w = api_portfolios_on env DEMO_PORTFOLIOS w
  /\ (forall data tickers_arg,
        quote_tickers data tickers_arg = [] ->
        api_quote_on env data tickers_arg w = (Http200 [], w))
  /\ (forall data,
        portfolios_of data = [] ->
        api_quote_on env data None w = (Http200 [], w)
        /\ api_portfolios_on env data w = (Http200 [], w))
  /\ (forall file', portfolios_of (load_portfolios file') <> []).
Proof.
  intros Hnone. pose proof (load_portfolios_unconfigured file Hnone) as Hload.
  split; [exact Hload|].
  split; [unfold api_quote; rewrite Hload; reflexivity|].
  split; [unfold api_portfolios; rewrite Hload; reflexivity|].
  split; [intros data arg H; apply api_quote_on_no_ticker; exact H|].
  split; [|apply load_portfolios_never_empty].
  intros data H. split.
  - apply api_quote_on_no_ticker. unfold quote_tickers. rewrite H. reflexivity.
  - apply api_portfolios_on_no_portfolio. exact H.
Qed.

(** C8, as the code has it. A quote request answered with status 200 has
    one entry per enumerated ticker, in the order of the enumeration; the
    answer is 200 whenever no history answer makes the fetch raise. The
    tickers enumerated from the portfolios are the first occurrences of
    the non-blank tickers, in configuration order, without repetition. An
    override is used as given: split at the commas, stripped, blanks
    dropped, repetitions kept. *)
Theorem quote_response_follows_enumeration (file : PortfolioFile)
    (tickers_arg : option string) (w : World) :
  let tickers := quote_tickers (load_portfolios file) tickers_arg in
  (forall body,
     fst (api_quote env file tickers_arg w) = Http200 body ->
     List.map item_ticker body = tickers)
  /\ (quiet env ->
      exists body,
        fst (api_quote env file tickers_arg w) = Http200 body
        /\ List.map item_ticker body = tickers)
  /\ (forall c s,
        tickers_arg = Some (String c s) ->
        tickers = List.filter truthy (List.map strip (split_comma (String c s))))
  /\ (tickers_arg = None \/ tickers_arg = Some "" ->
      tickers
      = first_occurrences (listed_tickers (portfolios_of (load_portfolios file)))
      /\ NoDup tickers).
Proof.
  intros tickers.
  assert (Hbody : forall body,
            fst (api_quote env file tickers_arg w) = Http200 body ->
            List.map item_ticker body = tickers).
  { intros body. unfold api_quote, api_quote_on, respond. fold tickers.
    destruct tickers as [|t ts] eqn:Et.
    - simpl. intros H. injection H as <-. reflexivity.
    - destruct (quote_loop env (t :: ts) [] w) as [[out|[d]] w'] eqn:Eloop;
        simpl; intros H; [|discriminate H].
      injection H as <-. apply quote_loop_tickers in Eloop. exact Eloop. }
  split; [exact Hbody|]. split; [|split].
  - intros Hq.
    assert (Hex : exists body,
              fst (api_quote env file tickers_arg w) = Http200 body).
    { unfold api_quote, api_quote_on, respond. fold tickers.
      destruct tickers as [|t ts].
      - eexists. reflexivity.
      - destruct (quote_loop_quiet env (t :: ts) Hq [] w) as (out & w' & Hl).
        rewrite Hl. eexists. reflexivity. }
    destruct Hex as [body Hb]. exists body. split; [exact Hb|].
    apply Hbody. exact Hb.
  - intros c s ->. reflexivity.
  - intros Harg.
    assert (Ht : tickers
                 = first_occurrences
                     (listed_tickers (portfolios_of (load_portfolios file)))).
    { unfold tickers. destruct Harg as [-> | ->]; simpl;
        apply collect_tickers_first_occurrences. }
    split; [exact Ht|]. rewrite Ht. apply first_occurrences_NoDup.
Qed.

End EndpointClaims.

(** C5 fails as stated: with a configuration whose portfolio list is
    empty and no override, both endpoints answer for the demo portfolios. *)
Lemma empty_configuration_counterexample :
  configured (FileJson (Some {| d_portfolios := Val [] |})) = []
  /\ fst (api_quote blank_env (FileJson (Some {| d_portfolios := Val [] |})) None
            empty_world)
     = Http200 [QuoteError "QQQ" "No data"; QuoteError "NVDA" "No data";
                QuoteError "HHIS.TO" "No data"]
  /\ (exists po1 po2,
        fst (api_portfolios blank_env (FileJson (Some {| d_portfolios := Val [] |}))
               empty_world)
        = Http200 [po1; po2]
        /\ po_name po1 = Some "Long-Term (USD)"
        /\ po_name po2 = Some "TFSA (CAD)").
Proof.
  split; [reflexivity|]. split; [vm_compute; reflexivity|].
  eexists _, _. split; [vm_compute; reflexivity|]. split; reflexivity.
Qed.

(** C8 fails as stated: a ticker repeated in the override is answered
    twice. *)
Lemma override_duplicates_counterexample :
  exists body,
    fst (api_quote live_env FileMissing (Some "QQQ,QQQ") empty_world) = Http200 body
    /\ List.map item_ticker body = ["QQQ"; "QQQ"]
    /\ ~ NoDup (List.map item_ticker body).
Proof.
  eexists. split; [vm_compute; reflexivity|]. split; [reflexivity|].
  simpl. intros H. apply NoDup_cons_1_1 in H. apply H. constructor.
Qed.

Lemma live_env_quiet : quiet live_env.
Proof. intros tr ticker period interval. reflexivity. Qed.

Lemma unconfigured_serves_demo_witness :
  configured FileUnreadable = []
  /\ api_quote blank_env FileUnreadable None empty_world
     = api_quote_on blank_env DEMO_PORTFOLIOS None empty_world
  /\ portfolios_of (load_portfolios (FileJson (Some {| d_portfolios := Null |})))
     <> [].
Proof.
  destruct (unconfigured_serves_demo blank_env FileUnreadable empty_world)
    as (_ & Hq & _ & _ & _ & Hne); [reflexivity|].
  split; [reflexivity|]. split; [exact Hq|]. apply Hne.
Defined.

Lemma quote_response_follows_enumeration_witness :
  quiet live_env
  /\ (exists body,
        fst (api_quote live_env FileMissing None empty_world) = Http200 body
        /\ List.map item_ticker body = ["QQQ"; "NVDA"; "HHIS.TO"])
  /\ (exists body,
        fst (api_quote live_env FileMissing (Some " NVDA, ,QQQ,NVDA") empty_world)
        = Http200 body
        /\ List.map item_ticker body = ["NVDA"; "QQQ"; "NVDA"]).
Proof.
  split; [exact live_env_quiet|]. split.
  - exact (proj1 (proj2 (quote_response_follows_enumeration live_env FileMissing
                            None empty_world)) live_env_quiet).
  - exact (proj1 (proj2 (quote_response_follows_enumeration live_env FileMissing
                            (Some " NVDA, ,QQQ,NVDA") empty_world))
             live_env_quiet).
Defined.

Lemma unresolved_holdings_left_out_witness :
  let env := table_env [("QQQ", 430%float)] in
  let quotes : gmap string Quote :=
    <["HHIS.TO" := no_data]>
      (<["NVDA" := no_data]>
         (<["QQQ" := (Some 430%float, Some "1m", Some "2024-01-02T15:04:00+00:00")]>
            ∅)) in
  fst (prefetch env (collect_tickers (portfolios_of DEMO_PORTFOLIOS)) ∅ empty_world)
  = Ok quotes
  /\ exists body,
       fst (api_portfolios_on env DEMO_PORTFOLIOS empty_world) = Http200 body
       /\ Forall2 (unresolved_left_out quotes) (portfolios_of DEMO_PORTFOLIOS) body.
Proof.
  intros env quotes.
  assert (H : fst (prefetch env (collect_tickers (portfolios_of DEMO_PORTFOLIOS))
                     ∅ empty_world) = Ok quotes) by (vm_compute; reflexivity).
  split; [exact H|].
  exact (unresolved_holdings_left_out env DEMO_PORTFOLIOS empty_world quotes H).
Defined.

Lemma pl_pct_needs_positive_cost_witness :
  let env := table_env [("QQQ", 430%float)] in
  let quotes : gmap string Quote :=
    <["QQQ" := (Some 430%float, Some "1m", Some "2024-01-02T15:04:00+00:00")]> ∅ in
  fst (prefetch env (collect_tickers (portfolios_of gift_portfolios)) ∅ empty_world)
  = Ok quotes
  /\ exists body,
       fst (api_portfolios_on env gift_portfolios empty_world) = Http200 body
       /\ Forall2 (pct_guarded quotes) (portfolios_of gift_portfolios) body.
Proof.
  intros env quotes.
  assert (H : fst (prefetch env (collect_tickers (portfolios_of gift_portfolios))
                     ∅ empty_world) = Ok quotes) by (vm_compute; reflexivity).
  split; [exact H|].
  exact (proj2 (proj2 (pl_pct_needs_positive_cost env gift_portfolios empty_world
                         quotes H))).
Defined.

(** The demo portfolios when NVDA and HHIS.TO have no data: the first
    portfolio's totals count QQQ only. *)
Example partial_failure_totals :
  match fst (api_portfolios (table_env [("QQQ", 430%float)]) FileMissing empty_world) with
  | Http200 (po :: _) =>
      List.map o_market_value (po_holdings po) = [Some 4300%float; None]
      /\ List.map o_pl_pct (po_holdings po)
         = [Some ((4300 - 4200) / 4200 * 100)%float; None]
      /\ t_cost (po_totals po) = 4200%float
      /\ t_value (po_totals po) = 4300%float
  | _ => False
  end.
Proof. vm_compute. repeat split; reflexivity. Qed.

(** The example of the specification: prices 430 and 900 give cost 6100,
    value 6100, P/L 0 and P/L percentage 0. *)
Example zero_pl_totals :
  match fst (api_portfolios (table_env [("QQQ", 430%float); ("NVDA", 900%float)])
               FileMissing empty_world) with
  | Http200 (po :: _) =>
      po_totals po
      = {| t_cost := 6100%float; t_value := 6100%float; t_pl := 0%float;
           t_pl_pct := Some 0%float |}
  | _ => False
  end.
Proof. vm_compute. reflexivity. Qed.

(** A holding bought at zero cost: its P/L is computed, its percentage is
    not, and neither is the portfolio's. *)
Example zero_cost_holding :
  match fst (api_portfolios_on (table_env [("QQQ", 430%float)]) gift_portfolios
               empty_world) with
  | Http200 [po] =>
      List.map o_pl (po_holdings po) = [Some 1290%float; None]
      /\ List.map o_pl_pct (po_holdings po) = [None; None]
      /\ po_totals po
         = {| t_cost := 0%float; t_value := 1290%float; t_pl := 1290%float;
              t_pl_pct := None |}
  | _ => False
  end.
Proof. vm_compute. repeat split; reflexivity. Qed.

(** * Further properties of the cache and the fetch *)

Section CoreExtras.

Variable env : Env.

Lemma last_resort_effect (T : string) (w : World) :
  exists q e evs,
    last_resort env T w
    = (Ok q, {| _CACHE := <[T := e]> (_CACHE w); trace := trace w ++ evs |})
    /\ entry_quote e = q
    /\ complete q
    /\ upstream_calls evs = [EvFastInfo T].
Proof.
  destruct (yf_fast_info env (trace w) T) as [[P|]|x] eqn:E.
  - rewrite (last_resort_price env T w P E). eexists _, _, _.
    split; [reflexivity|]. repeat split.
  - rewrite last_resort_none by (rewrite E; reflexivity). eexists _, _, _.
    split; [reflexivity|]. repeat split.
  - rewrite last_resort_none by (rewrite E; reflexivity). eexists _, _, _.
    split; [reflexivity|]. repeat split.
Qed.

(** What [_hist_try] can return. *)
Lemma _hist_try_cases (T p i : string) (w : World) :
  (exists price iso,
     _hist_try env T p i w
     = (Ok (Some price, Some i, Some iso), log_event (EvHistory T p i) w)
     /\ is_empty_frame (yf_history env (trace w) T p i) = false
     /\ readable (yf_history env (trace w) T p i) = true)
  \/ (_hist_try env T p i w = (Ok no_data, log_event (EvHistory T p i) w)
      /\ is_empty_frame (yf_history env (trace w) T p i) = true)
  \/ (exists e,
        _hist_try env T p i w = (Raise e, log_event (EvHistory T p i) w)
        /\ readable (yf_history env (trace w) T p i) = false).
Proof.
  unfold _hist_try, bind, history, lift, readable. simpl.
  destruct (yf_history env (trace w) T p i) as [[rows|]|e]; simpl.
  - destruct rows as [|r0 rows]; [right; left; split; reflexivity|].
    assert (Hlast : exists r, last (r0 :: rows) = Some r).
    { destruct (last (r0 :: rows)) as [r|] eqn:El; [eexists; reflexivity|].
      apply last_None in El. discriminate El. }
    destruct Hlast as [r ->].
    destruct (row_Close r) as [price|e]; simpl.
    + destruct (ts_utc_isoformat (row_name r)) as [iso|e]; simpl.
      * left. exists price, iso. repeat split.
      * right; right. exists e. split; reflexivity.
    + right; right. exists e. split; reflexivity.
  - right; left. split; reflexivity.
  - right; right. exists e. split; reflexivity.
Qed.

(** The loop over the tiers, by its effect on the world. *)
Lemma hist_loop_effect (T : string) (tiers : list (string * string)) :
  forall w,
    exists evs,
      trace (snd (hist_loop env T tiers w)) = (trace w ++ evs)%list
      /\ upstream_calls evs `prefix_of` fetch_pass T tiers
      /\ match hist_loop env T tiers w with
         | (Ok q, w') =>
             complete q
             /\ exists e, _CACHE w' = <[T := e]> (_CACHE w) /\ entry_quote e = q
         | (Raise _, w') => _CACHE w' = _CACHE w
         end.
Proof.
  induction tiers as [|[p i] tiers IH]; intros w.
  - destruct (last_resort_effect T w) as (q & e & evs & Hrun & Hq & Hc & Hup).
    cbn [hist_loop]. rewrite Hrun. exists evs. split; [reflexivity|].
    split; [rewrite Hup; reflexivity|]. split; [exact Hc|].
    exists e. split; [reflexivity|exact Hq].
  - cbn [hist_loop]. unfold bind.
    destruct (_hist_try_cases T p i w)
      as [(price & iso & -> & _) | [[-> _] | (e & -> & _)]].
    + rewrite _cache_put_run. unfold ret. cbn [fst snd trace _CACHE log_event].
      exists [EvHistory T p i; EvTime]. split; [rewrite <- app_assoc; reflexivity|].
      split; [apply prefix_cons, prefix_nil|]. split; [exact I|].
      eexists. split; reflexivity.
    + cbn [no_data]. destruct (IH (log_event (EvHistory T p i) w))
        as (evs & Htr & Hpre & Hres).
      exists (EvHistory T p i :: evs). split.
      { rewrite Htr. unfold log_event. simpl. rewrite <- app_assoc. reflexivity. }
      split; [apply prefix_cons; exact Hpre|]. exact Hres.
    + exists [EvHistory T p i]. split; [reflexivity|].
      split; [apply prefix_cons, prefix_nil|]. reflexivity.
Qed.

Lemma get_price_effect (T : string) (w : World) :
  exists evs,
    trace (snd (get_price env T w)) = (trace w ++ evs)%list
    /\ upstream_calls evs `prefix_of` fetch_pass T TIERS
    /\ match get_price env T w with
       | (Ok q, w') =>
           (_CACHE w' = _CACHE w
            \/ exists e, _CACHE w' = <[T := e]> (_CACHE w) /\ complete q)
           /\ exists e, _CACHE w' !! T = Some e /\ entry_quote e = q
       | (Raise _, w') => _CACHE w' = _CACHE w
       end.
Proof.
  unfold get_price, bind. rewrite _cache_get_run.
  destruct (_CACHE w !! T) as [c|] eqn:Ec; [destruct (fresh _ c)|].
  - exists [EvTime]. split; [reflexivity|]. split; [apply prefix_nil|].
    split; [left; reflexivity|]. exists c. split; [exact Ec|reflexivity].
  - destruct (hist_loop_effect T TIERS (log_event EvTime w)) as (evs & Htr & Hpre & Hres).
    exists (EvTime :: evs). split.
    { rewrite Htr. unfold log_event. simpl. rewrite <- app_assoc. reflexivity. }
    split; [exact Hpre|].
    destruct (hist_loop env T TIERS (log_event EvTime w)) as [[q|x] w'];
      [|exact Hres].
    destruct Hres as (Hc & e & He & Hq). split.
    + right. exists e. split; [exact He|exact Hc].
    + exists e. split; [rewrite He; apply lookup_insert_eq|exact Hq].
  - destruct (hist_loop_effect T TIERS (log_event EvTime w)) as (evs & Htr & Hpre & Hres).
    exists (EvTime :: evs). split.
    { rewrite Htr. unfold log_event. simpl. rewrite <- app_assoc. reflexivity. }
    split; [exact Hpre|].
    destruct (hist_loop env T TIERS (log_event EvTime w)) as [[q|x] w'];
      [|exact Hres].
    destruct Hres as (Hc & e & He & Hq). split.
    + right. exists e. split; [exact He|exact Hc].
    + exists e. split; [rewrite He; apply lookup_insert_eq|exact Hq].
Qed.

Lemma get_price_keeps_complete (T : string) (w : World) :
  cache_complete (_CACHE w) ->
  cache_complete (_CACHE (snd (get_price env T w)))
  /\ forall q, fst (get_price env T w) = Ok q -> complete q.
Proof.
  intros Hinv.
  destruct (get_price_effect T w) as (evs & _ & _ & Hres).
  destruct (get_price env T w) as [[q|x] w']; cbn [fst snd].
  - destruct Hres as [[Hsame | (e & He & Hc)] (e' & He' & Hq)].
    + rewrite Hsame in *. split; [exact Hinv|].
      intros q' Hq'. injection Hq' as <-. rewrite <- Hq.
      exact (Hinv T e' He').
    + split.
      * rewrite He in He'. rewrite lookup_insert_eq in He'. injection He' as <-.
        rewrite He. intros T' e' HT'.
        destruct (decide (T = T')) as [<-|Hne].
        -- rewrite lookup_insert_eq in HT'. injection HT' as <-.
           rewrite Hq. exact Hc.
        -- rewrite lookup_insert_ne in HT' by exact Hne. exact (Hinv T' e' HT').
      * intros q' Hq'. injection Hq' as <-. exact Hc.
  - rewrite Hres. split; [exact Hinv|]. intros q Hq. discriminate Hq.
Qed.

Lemma get_price_dom (T : string) (w : World) :
  dom (_CACHE w) ⊆ dom (_CACHE (snd (get_price env T w))).
Proof.
  destruct (get_price_effect T w) as (evs & _ & _ & Hres).
  destruct (get_price env T w) as [[q|x] w']; cbn [snd].
  - destruct Hres as [[-> | (e & -> & _)] _]; [reflexivity|].
    rewrite dom_insert_L. apply union_subseteq_r.
  - rewrite Hres. reflexivity.
Qed.

Lemma get_price_caches_ticker (T : string) (w : World) (q : Quote) (w' : World) :
  get_price env T w = (Ok q, w') -> T ∈ dom (_CACHE w').
Proof.
  intros H. destruct (get_price_effect T w) as (evs & _ & _ & Hres).
  rewrite H in Hres. destruct Hres as [_ (e & He & _)].
  apply elem_of_dom. exists e. exact He.
Qed.

End CoreExtras.

Section CoreExtraTheorems.

Variable env : Env.

(** X1. [get_price] for [T] either leaves the cache as it is or writes the
    one entry of [T]: no other ticker's entry is created, changed or
    removed. *)
Theorem get_price_writes_own_entry_only (T : string) (w : World) :
  _CACHE (snd (get_price env T w)) = _CACHE w
  \/ exists e, _CACHE (snd (get_price env T w)) = <[T := e]> (_CACHE w).
Proof.
  destruct (get_price_effect env T w) as (evs & _ & _ & Hres).
  destruct (get_price env T w) as [[q|x] w']; cbn [snd].
  - destruct Hres as [[Hsame | (e & He & _)] _].
    + left. exact Hsame.
    + right. exists e. exact He.
  - left. exact Hres.
Qed.

(** X2. When [get_price] returns a quote, the cache afterwards holds an
    entry for the ticker with exactly the returned price, interval and
    timestamp; when it raises, the cache is as before the call. *)
Theorem get_price_returns_what_is_cached (T : string) (w : World) :
  match get_price env T w with
  | (Ok q, w') => exists e, _CACHE w' !! T = Some e /\ entry_quote e = q
  | (Raise _, w') => _CACHE w' = _CACHE w
  end.
Proof.
  destruct (get_price_effect env T w) as (evs & _ & _ & Hres).
  destruct (get_price env T w) as [[q|x] w'].
  - exact (proj2 Hres).
  - exact Hres.
Qed.

(** X3. The provider queries of one [get_price] call are a prefix of the
    pass 1d/1m, 5d/1h, 1mo/1d, snapshot, all for the ticker asked: never
    more than four, never out of order, never for another ticker; and the
    call only ever adds to the trace. *)
Theorem get_price_queries_one_pass_at_most (T : string) (w : World) :
  exists evs,
    trace (snd (get_price env T w)) = (trace w ++ evs)%list
    /\ upstream_calls evs
       `prefix_of` [EvHistory T "1d" "1m"; EvHistory T "5d" "1h";
                    EvHistory T "1mo" "1d"; EvFastInfo T]
    /\ length (upstream_calls evs) <= 4.
Proof.
  destruct (get_price_effect env T w) as (evs & Htr & Hpre & _).
  exists evs. split; [exact Htr|]. split; [exact Hpre|].
  apply prefix_length in Hpre. exact Hpre.
Qed.

(** X4. If every cache entry is either the no-data triple or has price,
    interval and timestamp all present, then so is every entry after
    [get_price], and so is the quote [get_price] returns. *)
Theorem complete_quotes_invariant (T : string) (w : World) :
  cache_complete (_CACHE w) ->
  cache_complete (_CACHE (snd (get_price env T w)))
  /\ forall q, fst (get_price env T w) = Ok q -> complete q.
Proof. exact (get_price_keeps_complete env T w). Qed.

(** X5. [_hist_try] sends exactly one query and never writes the cache,
    whatever comes back. It raises exactly when the answer cannot be read
    (the query raised, or the last row's close or timestamp did); it
    answers [(None, None, None)] exactly when the frame is [None] or
    empty; any price it returns comes with the tier's interval and a
    timestamp. *)
Theorem _hist_try_outcome (T period interval : string) (w : World) :
  let answer := yf_history env (trace w) T period interval in
  snd (_hist_try env T period interval w)
  = log_event (EvHistory T period interval) w
  /\ is_ok (fst (_hist_try env T period interval w)) = readable answer
  /\ (fst (_hist_try env T period interval w) = Ok no_data
      <-> is_empty_frame answer = true)
  /\ forall price i ts,
       fst (_hist_try env T period interval w) = Ok (Some price, i, ts) ->
       i = Some interval /\ exists iso, ts = Some iso.
Proof.
  intros answer. unfold answer.
  destruct (_hist_try_cases env T period interval w)
    as [(price & iso & -> & He & Hr) | [[-> He] | (e & -> & Hr)]];
    cbn [fst snd is_ok].
  - split; [reflexivity|]. split; [symmetry; exact Hr|]. split.
    + rewrite He. split; intros H; discriminate H.
    + intros p i ts H. injection H as _ <- <-. split; [reflexivity|].
      eexists. reflexivity.
  - split; [reflexivity|]. split.
    + destruct (yf_history env (trace w) T period interval) as [[[|r rs]|]|x];
        try discriminate He; reflexivity.
    + split; [tauto|]. intros p i ts H. discriminate H.
  - split; [reflexivity|]. split; [symmetry; exact Hr|]. split.
    + split; [intros H; discriminate H|].
      intros He. destruct (yf_history env (trace w) T period interval)
        as [[[|r rs]|]|x]; try discriminate He; discriminate Hr.
    + intros p i ts H. discriminate H.
Qed.

End CoreExtraTheorems.

Lemma complete_quotes_invariant_witness :
  let w1 := snd (get_price thin_env "QQQ" empty_world) in
  cache_complete (_CACHE w1)
  /\ cache_complete (_CACHE (snd (get_price blank_env "ZZZ" w1)))
  /\ (forall q, fst (get_price blank_env "ZZZ" w1) = Ok q -> complete q).
Proof.
  intros w1.
  assert (H0 : cache_complete (_CACHE empty_world)).
  { intros T e H. unfold empty_world in H. cbn [_CACHE] in H.
    rewrite lookup_empty in H. discriminate H. }
  assert (H1 : cache_complete (_CACHE w1))
    by exact (proj1 (complete_quotes_invariant thin_env "QQQ" empty_world H0)).
  split; [exact H1|].
  exact (complete_quotes_invariant blank_env "ZZZ" w1 H1).
Defined.

(** * Further properties of the endpoints *)

Section EndpointExtras.

Variable env : Env.

Lemma quote_loop_complete (tickers : list string) :
  forall out w,
    cache_complete (_CACHE w) ->
    Forall item_complete out ->
    match quote_loop env tickers out w with
    | (Ok out', w') => Forall item_complete out' /\ cache_complete (_CACHE w')
    | (Raise _, w') => cache_complete (_CACHE w')
    end.
Proof.
  induction tickers as [|t tickers IH]; intros out w Hinv Hout.
  - simpl. split; assumption.
  - cbn [quote_loop]. unfold bind at 1.
    destruct (get_price_keeps_complete env t w Hinv) as [Hinv' Hq].
    destruct (get_price env t w) as [[[[p i] ts]|x] w1]; cbn [fst snd] in *;
      [|exact Hinv'].
    specialize (Hq _ eq_refl).
    destruct p as [p|].
    + apply IH; [exact Hinv'|]. apply Forall_app. split; [exact Hout|].
      constructor; [|constructor].
      destruct i as [i|], ts as [ts|]; simpl in Hq; try contradiction. exact I.
    + apply IH; [exact Hinv'|]. apply Forall_app. split; [exact Hout|].
      constructor; [|constructor]. reflexivity.
Qed.

Lemma quote_loop_dom (tickers : list string) :
  forall out w,
    match quote_loop env tickers out w with
    | (Ok _, w') =>
        dom (_CACHE w) ⊆ dom (_CACHE w')
        /\ forall t, t ∈ tickers -> t ∈ dom (_CACHE w')
    | (Raise _, w') => dom (_CACHE w) ⊆ dom (_CACHE w')
    end.
Proof.
  induction tickers as [|t tickers IH]; intros out w.
  - simpl. split; [reflexivity|]. intros t Ht. inversion Ht.
  - cbn [quote_loop]. unfold bind at 1.
    pose proof (get_price_dom env t w) as Hdom.
    pose proof (get_price_caches_ticker env t w) as Hin.
    destruct (get_price env t w) as [[[[p i] ts]|x] w1]; cbn [snd] in Hdom;
      [|exact Hdom].
    specialize (Hin _ _ eq_refl).
    assert (Hrest : forall out1,
              match quote_loop env tickers out1 w1 with
              | (Ok _, w') =>
                  dom (_CACHE w) ⊆ dom (_CACHE w')
                  /\ forall t0, t0 ∈ t :: tickers -> t0 ∈ dom (_CACHE w')
              | (Raise _, w') => dom (_CACHE w) ⊆ dom (_CACHE w')
              end).
    { intros out1. specialize (IH out1 w1).
      destruct (quote_loop env tickers out1 w1) as [[out'|x] w'].
      - destruct IH as [Hsub Hall]. split; [etransitivity; eassumption|].
        intros t0 Ht0. apply elem_of_cons in Ht0 as [->|Ht0].
        + apply Hsub. exact Hin.
        + apply Hall. exact Ht0.
      - etransitivity; eassumption. }
    destruct p as [p|]; apply Hrest.
Qed.

Lemma prefetch_dom (tickers : list string) :
  forall quotes w,
    match prefetch env tickers quotes w with
    | (Ok quotes', w') =>
        dom quotes' = list_to_set tickers ∪ dom quotes
        /\ dom (_CACHE w) ⊆ dom (_CACHE w')
    | (Raise _, w') => dom (_CACHE w) ⊆ dom (_CACHE w')
    end.
Proof.
  induction tickers as [|t tickers IH]; intros quotes w.
  - simpl. split; [|reflexivity]. rewrite union_empty_l_L. reflexivity.
  - cbn [prefetch]. unfold bind at 1.
    pose proof (get_price_dom env t w) as Hdom.
    destruct (get_price env t w) as [[q|x] w1]; cbn [snd] in Hdom; [|exact Hdom].
    specialize (IH (<[t := q]> quotes) w1).
    destruct (prefetch env tickers (<[t := q]> quotes) w1) as [[quotes'|x] w'].
    + destruct IH as [Hq Hsub]. split; [|etransitivity; eassumption].
      rewrite Hq, dom_insert_L. cbn [list_to_set foldr].
      rewrite (union_comm_L {[t]} (list_to_set tickers)), <- union_assoc_L.
      reflexivity.
    + etransitivity; eassumption.
Qed.

Lemma portfolio_payload_world (quotes : gmap string Quote) (pf : Portfolio)
    (w : World) :
  snd (portfolio_payload env quotes pf w) = log_event EvUtcNow w.
Proof.
  destruct (portfolio_payload_run env quotes pf w) as (po & Hpo & _).
  rewrite Hpo. reflexivity.
Qed.

Lemma payload_loop_cache (quotes : gmap string Quote) (pfs : list Portfolio) :
  forall acc w, _CACHE (snd (payload_loop env quotes pfs acc w)) = _CACHE w.
Proof.
  induction pfs as [|pf pfs IH]; intros acc w; [reflexivity|].
  cbn [payload_loop]. unfold bind at 1.
  destruct (portfolio_payload_run env quotes pf w) as (po & Hpo & _).
  rewrite Hpo. rewrite IH. reflexivity.
Qed.

End EndpointExtras.

(** ** The ticker argument *)









Lemma lstrip_all_space (s : string) : all_space s = true -> lstrip s = "".
Proof.
  induction s as [|c s IH]; [reflexivity|].
  simpl. intros H. apply andb_true_iff in H as [Hc Hs]. rewrite Hc. exact (IH Hs).
Qed.

Lemma split_comma_blank (s : string) :
  only_blanks_and_commas s = true ->
  Forall (fun x => all_space x = true) (split_comma s).
Proof.
  induction s as [|c s IH]; [intros _; repeat constructor|].
  cbn [only_blanks_and_commas split_comma]. intros H.
  apply andb_true_iff in H as [Hc Hs]. specialize (IH Hs).
  destruct (Ascii.eqb c ","%char) eqn:Ec.
  - constructor; [reflexivity|exact IH].
  - simpl in Hc. destruct (split_comma s) as [|x xs].
    + repeat constructor. simpl. rewrite Hc. reflexivity.
    + inversion IH as [|? ? Hx Hxs]; subst. constructor; [|exact Hxs].
      simpl. rewrite Hc, Hx. reflexivity.
Qed.

(** A string of commas and white space parses to no ticker. *)
Lemma parse_tickers_blank (s : string) :
  only_blanks_and_commas s = true -> parse_tickers s = [].
Proof.
  intros H. unfold parse_tickers.
  pose proof (split_comma_blank s H) as Hall.
  induction Hall as [|x xs Hx _ IH]; [reflexivity|].
  simpl. unfold strip at 1. rewrite (lstrip_all_space x Hx). simpl. exact IH.
Qed.

Lemma strip_leading_space (c : ascii) (x : string) :
  isspace c = true -> strip (String c x) = strip x.
Proof. intros H. unfold strip. simpl. rewrite H. reflexivity. Qed.

Lemma strip_leading_char (c : ascii) (x : string) :
  isspace c = false -> truthy (strip (String c x)) = true.
Proof. intros H. unfold strip. simpl. rewrite H. simpl. rewrite H. reflexivity. Qed.

(** A character that is neither a comma nor white space leaves a ticker. *)
Lemma parse_tickers_nonblank (s : string) :
  only_blanks_and_commas s = false -> parse_tickers s <> [].
Proof.
  unfold parse_tickers. induction s as [|c s IH]; [discriminate|].
  cbn [only_blanks_and_commas split_comma].
  destruct (Ascii.eqb c ","%char) eqn:Ec.
  - simpl. exact IH.
  - simpl orb. destruct (isspace c) eqn:Esp.
    + simpl andb. intros H. specialize (IH H).
      destruct (split_comma s) as [|x xs]; [exact (fun _ => IH eq_refl)|].
      cbn [List.map]. rewrite (strip_leading_space c x Esp). exact IH.
    + intros _. destruct (split_comma s) as [|x xs].
      * cbn [List.map List.filter]. rewrite (strip_leading_char c "" Esp).
        discriminate.
      * cbn [List.map List.filter]. rewrite (strip_leading_char c x Esp).
        discriminate.
Qed.


(** X8. The tickers enumerated from the portfolios are exactly the
    non-blank tickers of the configured holdings: a ticker is enumerated if
    and only if some holding of some portfolio carries it, and the blank
    ticker never is. *)
Theorem collect_tickers_membership (pfs : list Portfolio) (t : string) :
  t ∈ collect_tickers pfs
  <-> t <> ""
      /\ exists pf h,
           pf ∈ pfs /\ h ∈ holdings_of pf
           /\ get (h_ticker (or_empty h)) = Some t.
Proof.
  rewrite collect_tickers_first_occurrences, list_elem_of_In, first_occurrences_In.
  unfold listed_tickers. rewrite List.in_flat_map. split.
  - intros (pf & Hpf & Hin). apply List.in_flat_map in Hin as (h & Hh & Ht).
    unfold listed_ticker in Ht.
    destruct (get (h_ticker (or_empty h))) as [t'|] eqn:Eg; [|contradiction].
    destruct (truthy t') eqn:Etr; [|contradiction].
    destruct Ht as [->|[]]. split.
    + intros ->. discriminate Etr.
    + exists pf, h. rewrite !list_elem_of_In. repeat split; assumption.
  - intros (Hne & pf & h & Hpf & Hh & Hg).
    rewrite list_elem_of_In in Hpf. rewrite list_elem_of_In in Hh.
    exists pf. split; [exact Hpf|]. apply List.in_flat_map. exists h.
    split; [exact Hh|]. unfold listed_ticker. rewrite Hg.
    assert (Htr : truthy t = true).
    { unfold truthy. apply negb_true_iff.
      destruct (String.eqb_spec t ""); [contradiction|reflexivity]. }
    rewrite Htr. left. reflexivity.
Qed.

Lemma sum_resolved_none (quotes : gmap string Quote) (x : option Holding -> float)
    (start : float) (hs : list (option Holding)) :
  Forall (fun h => resolved quotes h = false) hs ->
  sum_resolved quotes x start hs = start.
Proof.
  intros H. induction H as [|h hs Hh _ IH]; [reflexivity|].
  rewrite sum_resolved_cons, Hh. exact IH.
Qed.

Lemma rows_of_unresolved (quotes : gmap string Quote)
    (hs : list (option Holding)) (rows : list HoldingOut) :
  Forall2 (row_ok quotes) hs rows ->
  Forall (fun h => resolved quotes h = false) hs ->
  Forall (fun row => o_price row = None /\ o_market_value row = None
                     /\ o_pl row = None /\ o_pl_pct row = None) rows.
Proof.
  intros H2. induction H2 as [|h row hs rows Hrow _ IH]; intros Hall;
    [constructor|].
  inversion Hall as [|? ? Hh Hhs]; subst. constructor; [|apply IH; exact Hhs].
  destruct Hrow as (_ & _ & _ & Hp & Hrest). unfold resolved in Hh.
  destruct (price_of quotes h); [discriminate Hh|].
  split; [exact Hp|exact Hrest].
Qed.

Section EndpointExtraTheorems.

Variable env : Env.

(** X10. On a cache whose entries are complete, every item of a 200 quote
    answer is either priced with its interval and timestamp present, or the
    error item "No data". *)
Theorem quote_items_complete (file : PortfolioFile) (tickers_arg : option string)
    (w : World) :
  cache_complete (_CACHE w) ->
  match api_quote env file tickers_arg w with
  | (Http200 body, w') => Forall item_complete body /\ cache_complete (_CACHE w')
  | (Http500 _ _, w') => cache_complete (_CACHE w')
  end.
Proof.
  intros Hinv. unfold api_quote, api_quote_on, respond.
  destruct (quote_tickers (load_portfolios file) tickers_arg) as [|t ts].
  - simpl. split; [constructor|exact Hinv].
  - pose proof (quote_loop_complete env (t :: ts) [] w Hinv (List.Forall_nil _)) as H.
    destruct (quote_loop env (t :: ts) [] w) as [[out|[d]] w']; exact H.
Qed.

(** X11. Neither endpoint ever removes a cache entry, whatever its answer;
    and after a 200 quote answer every requested ticker has a cache
    entry. *)
Theorem endpoints_only_add_to_cache (file : PortfolioFile)
    (tickers_arg : option string) (w : World) :
  match api_quote env file tickers_arg w with
  | (Http200 _, w') =>
      dom (_CACHE w) ⊆ dom (_CACHE w')
      /\ forall t, t ∈ quote_tickers (load_portfolios file) tickers_arg ->
                   is_Some (_CACHE w' !! t)
  | (Http500 _ _, w') => dom (_CACHE w) ⊆ dom (_CACHE w')
  end
  /\ dom (_CACHE w) ⊆ dom (_CACHE (snd (api_portfolios env file w))).
Proof.
  split.
  - unfold api_quote, api_quote_on, respond.
    destruct (quote_tickers (load_portfolios file) tickers_arg) as [|t ts].
    + simpl. split; [reflexivity|]. intros t Ht. inversion Ht.
    + pose proof (quote_loop_dom env (t :: ts) [] w) as H.
      destruct (quote_loop env (t :: ts) [] w) as [[out|[d]] w']; [|exact H].
      destruct H as [Hsub Hall]. split; [exact Hsub|].
      intros t0 Ht0. apply elem_of_dom, Hall. exact Ht0.
  - unfold api_portfolios, api_portfolios_on, respond.
    destruct (portfolios_of (load_portfolios file)) as [|pf pfs];
      [reflexivity|].
    unfold bind.
    pose proof (prefetch_dom env (collect_tickers (pf :: pfs)) ∅ w) as H.
    destruct (prefetch env (collect_tickers (pf :: pfs)) ∅ w) as [[quotes|[d]] w1].
    + destruct H as [_ Hsub].
      pose proof (payload_loop_cache env quotes (pf :: pfs) [] w1) as Hc.
      destruct (payload_loop env quotes (pf :: pfs) [] w1) as [[body|[d]] w2];
        cbn [snd] in *; rewrite Hc; exact Hsub.
    + exact H.
Qed.

(** X12. A non-empty [tickers] argument made of commas and white space
    only gives the empty list with status 200, without a look at the
    portfolios, the cache or the provider; with any other character in it,
    the argument yields at least one ticker to quote. *)
Theorem blank_override (file : PortfolioFile) (tickers_arg : string) (w : World) :
  tickers_arg <> "" ->
  (only_blanks_and_commas tickers_arg = true ->
   api_quote env file (Some tickers_arg) w = (Http200 [], w))
  /\ (only_blanks_and_commas tickers_arg = false ->
      quote_tickers (load_portfolios file) (Some tickers_arg) <> []).
Proof.
  intros Hne. destruct tickers_arg as [|c s]; [contradiction|]. split.
  - intros Hblank. unfold api_quote. apply api_quote_on_no_ticker.
    exact (parse_tickers_blank _ Hblank).
  - intros Hother. exact (parse_tickers_nonblank _ Hother).
Qed.

(** X13. A portfolio none of whose holdings has a price (among them the
    portfolio without holdings) gets the totals cost 0, value 0, P/L 0.0
    and no percentage, and rows without price, market value, P/L and
    percentage. *)
Theorem empty_totals (quotes : gmap string Quote) (pf : Portfolio) (w : World) :
  Forall (fun h => resolved quotes h = false) (holdings_of pf) ->
  exists po,
    fst (portfolio_payload env quotes pf w) = Ok po
    /\ po_totals po
       = {| t_cost := 0%float; t_value := 0%float; t_pl := 0%float;
            t_pl_pct := None |}
    /\ Forall (fun row => o_price row = None /\ o_market_value row = None
                          /\ o_pl row = None /\ o_pl_pct row = None)
              (po_holdings po).
Proof.
  intros Hall.
  destruct (portfolio_payload_run env quotes pf w) as (po & Hpo & Hrows & Htot).
  exists po. rewrite Hpo. split; [reflexivity|]. split.
  - rewrite !sum_resolved_none in Htot by exact Hall.
    destruct Htot as (Hc & Hv & Hpl). cbn in Hpl. destruct Hpl as [Hpl Hpct].
    destruct (po_totals po) as [c v pl pct]. simpl in *. subst. reflexivity.
  - exact (rows_of_unresolved quotes _ _ Hrows Hall).
Qed.

(** X16. When the prefetch goes through, its quotes have an entry for
    exactly the enumerated tickers: a holding with a non-blank ticker always
    finds its quote, a holding with a blank or missing ticker never does. *)
Theorem prefetch_covers_tickers (tickers : list string) (w : World)
    (quotes : gmap string Quote) :
  fst (prefetch env tickers ∅ w) = Ok quotes ->
  forall t, is_Some (quotes !! t) <-> t ∈ tickers.
Proof.
  intros H t. pose proof (prefetch_dom env tickers ∅ w) as Hd.
  destruct (prefetch env tickers ∅ w) as [[q|x] w']; cbn [fst] in H;
    [|discriminate H].
  injection H as ->. destruct Hd as [Hd _].
  rewrite <- elem_of_dom, Hd, dom_empty_L, union_empty_r_L, elem_of_list_to_set.
  reflexivity.
Qed.

End EndpointExtraTheorems.

Lemma quote_items_complete_witness :
  let w1 := snd (get_price thin_env "QQQ" empty_world) in
  let env := table_env [("NVDA", 900%float)] in
  cache_complete (_CACHE w1)
  /\ match api_quote env FileMissing None w1 with
     | (Http200 body, w') => Forall item_complete body /\ cache_complete (_CACHE w')
     | (Http500 _ _, w') => cache_complete (_CACHE w')
     end.
Proof.
  intros w1 env.
  assert (H0 : cache_complete (_CACHE empty_world)).
  { intros T e H. unfold empty_world in H. cbn [_CACHE] in H.
    rewrite lookup_empty in H. discriminate H. }
  assert (H1 : cache_complete (_CACHE w1))
    by exact (proj1 (get_price_keeps_complete thin_env "QQQ" empty_world H0)).
  split; [exact H1|].
  exact (quote_items_complete env FileMissing None w1 H1).
Defined.

Lemma blank_override_witness :
  (" , ," <> ""
   /\ only_blanks_and_commas " , ," = true
   /\ api_quote live_env FileMissing (Some " , ,") empty_world
      = (Http200 [], empty_world))
  /\ (" ,x" <> ""
      /\ only_blanks_and_commas " ,x" = false
      /\ quote_tickers (load_portfolios FileMissing) (Some " ,x") <> []).
Proof.
  assert (Hne : " , ," <> "") by discriminate.
  assert (Hb : only_blanks_and_commas " , ," = true) by reflexivity.
  assert (Hne' : " ,x" <> "") by discriminate.
  assert (Hb' : only_blanks_and_commas " ,x" = false) by reflexivity.
  split.
  - split; [exact Hne|]. split; [exact Hb|].
    exact (proj1 (blank_override live_env FileMissing " , ," empty_world Hne) Hb).
  - split; [exact Hne'|]. split; [exact Hb'|].
    exact (proj2 (blank_override live_env FileMissing " ,x" empty_world Hne') Hb').
Defined.

Lemma empty_totals_witness :
  let pf := {| pf_name := Val "Long-Term (USD)"; pf_currency := Val "USD";
               pf_holdings := Val [holding "QQQ" 10%float 420.0%float;
                                   holding "NVDA" 2%float 950.0%float] |} in
  let quotes : gmap string Quote := <["QQQ" := no_data]> ∅ in
  Forall (fun h => resolved quotes h = false) (holdings_of pf)
  /\ exists po,
       fst (portfolio_payload blank_env quotes pf empty_world) = Ok po
       /\ po_totals po
          = {| t_cost := 0%float; t_value := 0%float; t_pl := 0%float;
               t_pl_pct := None |}
       /\ Forall (fun row => o_price row = None /\ o_market_value row = None
                             /\ o_pl row = None /\ o_pl_pct row = None)
                 (po_holdings po).
Proof.
  intros pf quotes.
  assert (H : Forall (fun h => resolved quotes h = false) (holdings_of pf))
    by (repeat constructor).
  split; [exact H|].
  exact (empty_totals blank_env quotes pf empty_world H).
Defined.

Lemma prefetch_covers_tickers_witness :
  let env := table_env [("QQQ", 430%float)] in
  let quotes : gmap string Quote :=
    <["NVDA" := no_data]>
      (<["QQQ" := (Some 430%float, Some "1m", Some "2024-01-02T15:04:00+00:00")]>
         ∅) in
  fst (prefetch env ["QQQ"; "NVDA"] ∅ empty_world) = Ok quotes
  /\ forall t, is_Some (quotes !! t) <-> t ∈ ["QQQ"; "NVDA"].
Proof.
  intros env quotes.
  assert (H : fst (prefetch env ["QQQ"; "NVDA"] ∅ empty_world) = Ok quotes)
    by (vm_compute; reflexivity).
  split; [exact H|].
  exact (prefetch_covers_tickers env ["QQQ"; "NVDA"] empty_world quotes H).
Defined.
